(** * MaxText page manager: a shallow embedding of [MaxText/page_managers.py]

    The [PageManager] module of MaxText keeps a page table for a paged
    key/value cache: a per-page array [page_indices], three per-slot arrays
    ([seq_lengths], [seq_pages], [seq_page_cursor]) and a per-slot row of page
    ids ([seq_page_indices]).  This file embeds [setup], the three
    allocation methods and the two storage writers as Rocq functions over an
    explicit state record and proves what they do.

    Modelling conventions.
    - A [jnp] array of [int32] is a [list Z]; a two-dimensional one is a list
      of rows.  The trailing axis of length one in the per-slot arrays
      (shape [(max_num_sequences, 1)]) is dropped.
    - Python integers ([slot], [true_length], the configuration) are [Z];
      [//] is [Z.div] and [%] is [Z.modulo] (both floor, as in Python).
      A Python integer stored into an [int32] array must lie in
      [-2^31 .. 2^31-1]; otherwise JAX raises [OverflowError].
    - [true_length / page_size] is Python's true division, the quotient
      rounded to the nearest binary64 number; [jnp.ceil] takes it as a
      binary32 number (a second rounding), and [.astype(jnp.int32)] converts
      the ceiling, saturating at the [int32] bounds.  Both roundings are to
      nearest, ties to even, and are modelled exactly on dyadic numbers
      [m * 2^e].
    - [x.at[i].set(v)] is functional in JAX: it RETURNS the updated array and
      leaves [x] alone.  Where the source drops that result, so does the model.
      The update [v] must broadcast to the shape of the indexed cell: a value
      with a dimension (even of length one) written to a single cell raises
      [ValueError].
    - JAX index rules: a negative index counts from the end; an out-of-bounds
      read clamps; an out-of-bounds [.at[].set] is dropped; the [dynamic_*]
      primitives of [jax.lax] clamp their start index.  An index is taken to
      fit [int32], and an axis to have at least one entry: what JAX does
      with a wider index or on an axis of length 0 (it refuses to index
      there) is outside the model, which clamps the index like any other,
      reads a default and writes nothing.
    - [jnp.where(c, size=k)[0]] is the array of the first [k] indices at
      which [c] holds, padded with 0; with [size=1] it has shape [(1,)].
    - [jax.lax.cond(pred, true_fun, false_fun)] requires callable branches
      and raises [TypeError] otherwise.
    - A call that raises leaves the variables as they were assigned up to
      that point; the outcome carries that state.
    - Flax plumbing ([self.variable], [.value], logical partitioning) is not
      modelled: a variable is its array. *)

From Stdlib Require Import ZArith Lia String.
From stdpp Require Import base list.

Local Open Scope Z_scope.

(** ** The array primitives of [jax.numpy] and [jax.lax] that the source uses *)

Module Jnp.

Section Arrays.
Context {A : Type}.

Definition size (l : list A) : Z := Z.of_nat (length l).

(** A negative index counts from the end of the axis. *)
Definition normalize_index (n i : Z) : Z := if i <? 0 then i + n else i.

(** Clamping into [0 .. n-1], after normalisation. *)
Definition clamp_index (n i : Z) : Z :=
  Z.max 0 (Z.min (normalize_index n i) (n - 1)).

(** [x[i]]: a read; out of bounds it clamps.  [d] is returned for an empty
    array only (where JAX refuses to index). *)
Definition getitem (d : A) (l : list A) (i : Z) : A :=
  default d (l !! Z.to_nat (clamp_index (size l) i)).

(** [x.at[i].set(v)]: the updated COPY; out of bounds nothing is written. *)
Definition at_set (l : list A) (i : Z) (v : A) : list A :=
  let j := normalize_index (size l) i in
  if (0 <=? j) && (j <? size l) then <[Z.to_nat j := v]> l else l.

(** [jax.lax.dynamic_update_index_in_dim(x, v, i, axis=0)]: clamps [i]. *)
Definition dynamic_update_index_in_dim (l : list A) (v : A) (i : Z) : list A :=
  <[Z.to_nat (clamp_index (size l) i) := v]> l.

(** [jax.lax.dynamic_slice_in_dim(x, start, len)]: the start is normalised
    and clamped so that the slice fits. *)
Definition dynamic_slice_in_dim (l : list A) (start len : Z) : list A :=
  let s := Z.max 0 (Z.min (normalize_index (size l) start) (size l - len)) in
  take (Z.to_nat len) (drop (Z.to_nat s) l).

(** Indices (counted from [start]) of the entries satisfying [p], ascending. *)
Fixpoint indices_from (p : A -> bool) (start : Z) (l : list A) : list Z :=
  match l with
  | [] => []
  | x :: l' =>
      if p x then start :: indices_from p (start + 1) l'
      else indices_from p (start + 1) l'
  end.

(** [jnp.where(c, size=k)]: the first [k] indices where [c] holds, padded
    with the fill value 0. *)
Definition where_size (p : A -> bool) (l : list A) (k : Z) : list Z :=
  take (Z.to_nat k) (indices_from p 0 l ++ replicate (Z.to_nat k) 0).
End Arrays.

(** [x.at[r, c].set(v)] on a two-dimensional array. *)
Definition at_set2 {A} (rows : list (list A)) (r c : Z) (v : A) : list (list A) :=
  let r' := normalize_index (size rows) r in
  if (0 <=? r') && (r' <? size rows) then
    match rows !! Z.to_nat r' with
    | Some row =>
        let c' := normalize_index (size row) c in
        if (0 <=? c') && (c' <? size row)
        then <[Z.to_nat r' := <[Z.to_nat c' := v]> row]> rows
        else rows
    | None => rows
    end
  else rows.

(** [jax.lax.dynamic_update_slice_in_dim(pages, block, p, axis=1)] where the
    block is one page long on the page axis: the row at the clamped index [p]
    receives the block over its leading offsets. *)
Definition dynamic_update_slice_in_dim {A} (pages : list (list A))
    (block : list A) (p : Z) : list (list A) :=
  let j := Z.to_nat (clamp_index (size pages) p) in
  match pages !! j with
  | Some row => <[j := take (length row) (block ++ drop (length block) row)]> pages
  | None => pages
  end.

(** [x.at[:, rs, cs, :].set(new)] with index arrays [rs] and [cs]: entry [k]
    of [new] goes to row [rs[k]], column [cs[k]].  Where two entries name the
    same cell JAX leaves open which one lands; here they are applied in
    order, so the later one does. *)
Definition at_set_cells {A} (pages : list (list A)) (rs cs : list Z)
    (new : list A) : list (list A) :=
  foldl (fun pages w => at_set2 pages w.1.1 w.1.2 w.2) pages (zip (zip rs cs) new).

Definition arange (n : Z) : list Z := seqZ 0 n.

Definition zeros (n : Z) : list Z := replicate (Z.to_nat n) 0.

Definition count_nonzero (l : list Z) : Z :=
  Z.of_nat (length (filter (fun x => x <> 0) l)).

(** Python's [range(n)]. *)
Definition range (n : Z) : list Z := seqZ 0 n.

(** Two's complement wrap-around of [int32] arithmetic. *)
Definition wrap_int32 (x : Z) : Z := (x + 2 ^ 31) mod 2 ^ 32 - 2 ^ 31.

(** Whether a Python integer fits an [int32] cell. *)
Definition in_int32 (z : Z) : bool := (- 2 ^ 31 <=? z) && (z <? 2 ^ 31).

(** A value with its shape: a scalar, or an array with one axis. *)
Inductive array :=
| Scalar (z : Z)
| Vector (l : list Z).

(** [x.at[r, c].set(v)] with a value that has a shape: the cell has shape
    [()], and only a scalar broadcasts to it.  [None] is JAX's [ValueError]. *)
Definition at_set2_array (rows : list (list Z)) (r c : Z) (v : array)
    : option (list (list Z)) :=
  match v with
  | Scalar z => Some (at_set2 rows r c z)
  | Vector _ => None
  end.

(** *** Floating point: binary64 and binary32 numbers as dyadics [(m, e)],
    standing for [m * 2^e] *)

(** The ceiling of the rational [a / b], for [b > 0]. *)
Definition ceil_quot (a b : Z) : Z := - ((- a) / b).

(** The integer nearest to [n / d] ([d > 0]), a tie going to the even one. *)
Definition round_half_even (n d : Z) : Z :=
  let q := n / d in
  let r := n mod d in
  if 2 * r <? d then q
  else if d <? 2 * r then q + 1
  else if Z.even q then q else q + 1.

(** Whether [n / d >= 2^e], for [n, d > 0]. *)
Definition ratio_ge_pow2 (n d e : Z) : bool :=
  if 0 <=? e then d * 2 ^ e <=? n else d <=? n * 2 ^ (- e).

(** [floor (log2 (n / d))], for [n, d > 0]. *)
Definition ilog2_ratio (n d : Z) : Z :=
  let l := Z.log2 n - Z.log2 d in
  if ratio_ge_pow2 n d l then l else l - 1.

(** A binary format: the number of mantissa bits and the exponent of its
    smallest positive number. *)
Record format := Format { prec : Z; emin : Z }.

Definition binary64 : format := Format 53 (-1074).
Definition binary32 : format := Format 24 (-149).

(** The number of the format nearest to [n / d] ([d > 0]), ties to even.
    Overflow to infinity is not modelled: the quotients met here are at most
    2^31 in magnitude. *)
Definition round_ratio (f : format) (n d : Z) : Z * Z :=
  if n =? 0 then (0, 0)
  else
    let e := Z.max (ilog2_ratio (Z.abs n) d - prec f + 1) (emin f) in
    (if 0 <=? e then round_half_even n (d * 2 ^ e)
     else round_half_even (n * 2 ^ (- e)) d, e).

(** Python's [a / b] on integers ([b <> 0]): the binary64 number nearest to
    the quotient. *)
Definition true_div (a b : Z) : Z * Z :=
  round_ratio binary64 (a * Z.sgn b) (Z.abs b).

(** A binary64 number taken as a binary32 number. *)
Definition to_float32 (x : Z * Z) : Z * Z :=
  if 0 <=? x.2 then round_ratio binary32 (x.1 * 2 ^ x.2) 1
  else round_ratio binary32 x.1 (2 ^ (- x.2)).

(** [jnp.ceil] of a dyadic number, as an integer. *)
Definition ceil (x : Z * Z) : Z :=
  if 0 <=? x.2 then x.1 * 2 ^ x.2 else ceil_quot x.1 (2 ^ (- x.2)).

(** [.astype(jnp.int32)] of an integral float: saturating. *)
Definition astype_int32 (z : Z) : Z := Z.max (- 2 ^ 31) (Z.min z (2 ^ 31 - 1)).

(** [jnp.ceil(a / b).astype(jnp.int32)] for Python integers [a] and [b]. *)
Definition float32_ceil_div (a b : Z) : Z :=
  astype_int32 (ceil (to_float32 (true_div a b))).

End Jnp.
(** ** The page manager *)

Module PageManager.
Import Jnp.

(** The dataclass fields of [PageManager]. *)
Record config := Config {
  max_num_sequences : Z;
  max_target_length : Z;
  page_size : Z;
  num_pages : Z
}.

(** The five variables of the ["cache"] collection. *)
Record state := State {
  page_indices : list Z;
  seq_lengths : list Z;
  seq_pages : list Z;
  seq_page_cursor : list Z;
  seq_page_indices : list (list Z)
}.

(** The exceptions the methods raise. *)
Inductive exn :=
| AssertionError (msg : string)
| ValueError
| TypeError
| OverflowError
| ZeroDivisionError.

(** How a call ends; either way the variables hold what was stored so far. *)
Inductive outcome :=
| Returned (st : state)
| Raised (e : exn) (st : state).

Definition final_state (o : outcome) : state :=
  match o with Returned st => st | Raised _ st => st end.

Definition returns (o : outcome) : bool :=
  match o with Returned _ => true | Raised _ _ => false end.

(** A [for] loop whose body may raise. *)
Fixpoint for_each {I} (xs : list I) (body : I -> state -> outcome)
    (st : state) : outcome :=
  match xs with
  | [] => Returned st
  | x :: xs' =>
      match body x st with
      | Returned st' => for_each xs' body st'
      | Raised e st' => Raised e st'
      end
  end.

Definition set_seq_page_indices (st : state) (rows : list (list Z)) : state :=
  State (page_indices st) (seq_lengths st) (seq_pages st) (seq_page_cursor st) rows.

Section WithConfig.
Variable cfg : config.

(** [self.max_target_length // self.page_size] *)
Definition max_pages_per_sequence : Z := max_target_length cfg / page_size cfg.

(** [setup]: the initial value of every variable. *)
Definition setup : state :=
  State (arange (num_pages cfg))
        (zeros (max_num_sequences cfg))
        (zeros (max_num_sequences cfg))
        (zeros (max_num_sequences cfg))
        (replicate (Z.to_nat (max_num_sequences cfg)) (zeros max_pages_per_sequence)).

(** [jnp.count_nonzero(self.page_indices.value[1:]) != self.num_pages-1],
    the condition of both [assert]s. *)
Definition some_page_free (st : state) : bool :=
  negb (count_nonzero (drop 1 (page_indices st)) =? num_pages cfg - 1).

(** [jnp.where((self.page_indices.value[1:]==0), size=1)[0]] *)
Definition free_page_idx (st : state) : Z :=
  getitem 0 (where_size (fun x => x =? 0) (drop 1 (page_indices st)) 1) 0.

(** [release_slot]. The loop computes [page_indices.at[page_idx].set(0)]
    and drops it. *)
Definition release_slot (st : state) (slot : Z) : state :=
  let st :=
    foldl (fun st i =>
             let page_idx := getitem 0 (getitem [] (seq_page_indices st) slot) i in
             let _ := at_set (page_indices st) page_idx 0 in
             st)
          st (range (getitem 0 (seq_pages st) slot)) in
  let empty_page_indices := zeros max_pages_per_sequence in
  State (page_indices st)
        (dynamic_update_index_in_dim (seq_lengths st) 0 slot)
        (dynamic_update_index_in_dim (seq_pages st) 0 slot)
        (dynamic_update_index_in_dim (seq_page_cursor st) 0 slot)
        (dynamic_update_index_in_dim (seq_page_indices st) empty_page_indices slot).

(** One iteration of the loop of [assign_prefill_step_pages].  [page_idx]
    is [jnp.where(..., size=1)[0]], an array of shape [(1,)]: the update of
    [page_indices] with it is computed and dropped, and writing it to the
    single cell [seq_page_indices[slot, i]] fails to broadcast. *)
Definition prefill_body (slot : Z) (i : Z) (st : state) : outcome :=
  if some_page_free st then
    let page_idx := Vector (where_size (fun x => x =? 0) (drop 1 (page_indices st)) 1) in
    let _ := at_set (page_indices st) (free_page_idx st) 1 in
    match at_set2_array (seq_page_indices st) slot i page_idx with
    | Some rows => Returned (set_seq_page_indices st rows)
    | None => Raised ValueError st
    end
  else Raised (AssertionError "All pages are in use.") st.

(** [assign_prefill_step_pages].  Line 112 divides by [page_size]
    ([ZeroDivisionError] for 0); lines 114 to 118 store the length, the page
    count and the cursor one after the other, each store raising
    [OverflowError] for a Python integer outside [int32]; then the loop. *)
Definition assign_prefill_step_pages (st : state) (slot true_length : Z) : outcome :=
  if page_size cfg =? 0 then Raised ZeroDivisionError st
  else if negb (in_int32 true_length) then Raised OverflowError st
  else
    let new_seq_pages := float32_ceil_div true_length (page_size cfg) in
    let new_seq_page_cursor := (true_length - 1) mod page_size cfg in
    let st :=
      State (page_indices st)
            (dynamic_update_index_in_dim (seq_lengths st) true_length slot)
            (dynamic_update_index_in_dim (seq_pages st) new_seq_pages slot)
            (seq_page_cursor st)
            (seq_page_indices st) in
    if negb (in_int32 new_seq_page_cursor) then Raised OverflowError st
    else
      let st :=
        State (page_indices st)
              (seq_lengths st)
              (seq_pages st)
              (dynamic_update_index_in_dim (seq_page_cursor st) new_seq_page_cursor slot)
              (seq_page_indices st) in
      for_each (range new_seq_pages) (prefill_body slot) st.

(** [update_prefill_step_pages], on one of the two buffers: [pages] is
    [key_pages] (or [value_pages]) as a list of pages, each a list of
    [page_size] entries; [new] is [key] (or [value]) as the list of its
    entries by token position.  An entry stands for the vectors of all heads
    at one position, which the source moves together. *)
Definition update_pages {V} (st : state) (pages : list (list V)) (new : list V)
    (slot : Z) : list (list V) :=
  foldl (fun pages i =>
           let assigned_page_idx :=
             getitem 0 (getitem [] (seq_page_indices st) slot) i in
           let block :=
             dynamic_slice_in_dim new ((i - 1) * page_size cfg) (page_size cfg) in
           dynamic_update_slice_in_dim pages block assigned_page_idx)
        pages (range (getitem 0 (seq_pages st) slot)).

(** [update_prefill_step_pages]: the same loop over both buffers. *)
Definition update_prefill_step_pages {V} (st : state)
    (key_pages value_pages : list (list V)) (key value : list V) (slot : Z)
    : list (list V) * list (list V) :=
  (update_pages st key_pages key slot, update_pages st value_pages value slot).

(** [assigned_page_idx = self.seq_pages - 1] *)
Definition assigned_page_idx (st : state) : list Z :=
  (fun p => wrap_int32 (p - 1)) <$> seq_pages st.

(** [update_decode_step_pages], on one of the two buffers: [new] holds one
    entry per slot (the vectors of all heads for that slot's new token). *)
Definition update_decode_pages {V} (st : state) (pages : list (list V))
    (new : list V) : list (list V) :=
  let assigned_page_cursor := seq_page_cursor st in
  at_set_cells pages (assigned_page_idx st) assigned_page_cursor new.

(** [update_decode_step_pages]: the same update on both buffers. *)
Definition update_decode_step_pages {V} (st : state)
    (key_pages value_pages : list (list V)) (key value : list V)
    : list (list V) * list (list V) :=
  (update_decode_pages st key_pages key, update_decode_pages st value_pages value).

End WithConfig.

(** [assign_decode_step_pages].  Its first statement (line 127) evaluates
    [jax.lax.cond(self.seq_lengths.value > 0, 1, 0)]: the branches are the
    integers 1 and 0, not callables, so [lax.cond] raises [TypeError] before
    anything is assigned.  Lines 128 to 140 are never reached. *)
Definition assign_decode_step_pages (cfg : config) (st : state) : outcome :=
  Raised TypeError st.

End PageManager.
Import Jnp PageManager.

(** ** Calls, runs and the properties the page table is meant to have *)

Inductive call :=
| Prefill (slot true_length : Z)
| Decode
| Release (slot : Z).

Definition step (cfg : config) (st : state) (c : call) : outcome :=
  match c with
  | Prefill slot true_length => assign_prefill_step_pages cfg st slot true_length
  | Decode => assign_decode_step_pages cfg st
  | Release slot => Returned (release_slot cfg st slot)
  end.

(** The states a generation loop can get to from [setup] with calls that
    return. *)
Inductive reachable (cfg : config) : state -> Prop :=
| reachable_setup : reachable cfg (setup cfg)
| reachable_step st c st' :
    reachable cfg st -> step cfg st c = Returned st' -> reachable cfg st'.

(** A slot is active when its length is positive. *)
Definition active (st : state) (s : Z) : bool := 0 <? getitem 0 (seq_lengths st) s.

(** [seq_page_indices[s][i]] *)
Definition page_of (st : state) (s i : Z) : Z :=
  getitem 0 (getitem [] (seq_page_indices st) s) i.

(** The first [seq_pages] entries of a slot's row. *)
Definition owned (st : state) (s : Z) : list Z :=
  take (Z.to_nat (getitem 0 (seq_pages st) s)) (getitem [] (seq_page_indices st) s).

Definition slots (st : state) : list Z := range (size (seq_lengths st)).

(** The owned entries of all active slots, slot by slot. *)
Definition owned_pages (st : state) : list Z :=
  concat ((fun s => if active st s then owned st s else []) <$> slots st).

(** The pages whose flag in [page_indices] is nonzero. *)
Definition in_use_pages (st : state) : list Z :=
  indices_from (fun x => negb (x =? 0)) 0 (page_indices st).

(** The free usable pages: the zero flags of [page_indices[1:]], by page id. *)
Definition free_pages (st : state) : list Z :=
  indices_from (fun x => x =? 0) 1 (drop 1 (page_indices st)).

Definition free_page_count (st : state) : Z := size (free_pages st).

(** No page is owned by two different active slots. *)
Definition no_aliasing (st : state) : Prop :=
  forall s t p, s ∈ slots st -> t ∈ slots st -> s <> t ->
    active st s = true -> active st t = true ->
    p ∈ owned st s -> p ∈ owned st t -> False.

(** The owned entries are exactly the pages flagged in use. *)
Definition pool_matches (st : state) : Prop :=
  forall p, p ∈ owned_pages st <-> p ∈ in_use_pages st.

(** The exception of both [assert]s. *)
Definition all_in_use : exn := AssertionError "All pages are in use.".

(** The token positions [i*page_size, (i+1)*page_size) of [new], the range
    page [i] of a slot is meant to receive. *)
Definition page_range (cfg : config) {V} (new : list V) (i : Z) : list V :=
  take (Z.to_nat (page_size cfg)) (drop (Z.to_nat (i * page_size cfg)) new).

(** No slot is active. *)
Definition idle (st : state) : Prop := Forall (fun n => n <= 0) (seq_lengths st).

(** The table once lines 114 and 115 of a prefill have run: the slot's
    length and page count are overwritten. *)
Definition prefill_half_stored (cfg : config) (st : state) (slot L : Z) : state :=
  State (page_indices st)
        (dynamic_update_index_in_dim (seq_lengths st) L slot)
        (dynamic_update_index_in_dim (seq_pages st)
           (float32_ceil_div L (page_size cfg)) slot)
        (seq_page_cursor st)
        (seq_page_indices st).

(** The table once lines 114 to 118 have run: the cursor is overwritten too. *)
Definition prefill_stored (cfg : config) (st : state) (slot L : Z) : state :=
  State (page_indices st)
        (dynamic_update_index_in_dim (seq_lengths st) L slot)
        (dynamic_update_index_in_dim (seq_pages st)
           (float32_ceil_div L (page_size cfg)) slot)
        (dynamic_update_index_in_dim (seq_page_cursor st)
           ((L - 1) mod page_size cfg) slot)
        (seq_page_indices st).

(** The lengths lines 112 to 118 go through with: the page size is not 0 and
    the length and the cursor fit [int32]. *)
Definition prefill_storable (cfg : config) (L : Z) : bool :=
  negb (page_size cfg =? 0) && in_int32 L && in_int32 ((L - 1) mod page_size cfg).

(** The per-slot arrays have [n] entries and every row of
    [seq_page_indices] has [w] columns. *)
Definition table_shape (st : state) (n w : nat) : Prop :=
  length (seq_lengths st) = n /\ length (seq_pages st) = n /\
  length (seq_page_cursor st) = n /\ length (seq_page_indices st) = n /\
  Forall (fun row => length row = w) (seq_page_indices st).

(** The entry at row [i], column [j] of a two-dimensional array. *)
Definition cell {A} (pages : list (list A)) (i j : nat) : option A :=
  pages !! i ≫= fun row => row !! j.

(** The cell an index pair [(r, c)] of [.at[r, c]] names: none when either
    index, after counting from the end, is out of bounds. *)
Definition cell_of {A} (pages : list (list A)) (r c : Z) : option (nat * nat) :=
  let r' := normalize_index (size pages) r in
  if (0 <=? r') && (r' <? size pages) then
    match pages !! Z.to_nat r' with
    | Some row =>
        let c' := normalize_index (size row) c in
        if (0 <=? c') && (c' <? size row) then Some (Z.to_nat r', Z.to_nat c')
        else None
    | None => None
    end
  else None.

(** The writes of one [update_decode_step_pages] call: per slot, the page
    index, the offset and the entry. *)
Definition decode_writes {V} (st : state) (new : list V) : list (Z * Z * V) :=
  zip (zip (assigned_page_idx st) (seq_page_cursor st)) new.

(** The row index [dynamic_update_slice_in_dim] writes for page [k] of a slot
    in [update_prefill_step_pages]. *)
Definition prefill_target {V} (st : state) (pages : list (list V)) (slot k : Z) : nat :=
  Z.to_nat (clamp_index (size pages) (page_of st slot k)).

(** ** Concrete configurations and tables *)

(** Three pages, page size 16, two slots of four columns. *)
Definition cfg3 : config := Config 2 64 16 3.

(** Three pages, page size 4. *)
Definition cfg3x4 : config := Config 2 16 4 3.

(** Scenario A of the specification: ten pages, page size 16. *)
Definition cfgA : config := Config 2 64 16 10.

(** Two empty slots over a pool with the flags [pool]. *)
Definition empty_table (pool : list Z) : state :=
  State pool [0; 0] [0; 0] [0; 0] [[0; 0; 0; 0]; [0; 0; 0; 0]].

(** ** The page count of a prefill: signs survive the two roundings *)

Section Floats.

Lemma ceil_quot_pos a b : 0 < b -> 1 <= a -> 1 <= ceil_quot a b.
Proof.
  intros Hb Ha. unfold ceil_quot.
  assert ((- a) / b < 0) by (apply Z.div_lt_upper_bound; lia). lia.
Qed.

Lemma ceil_quot_nonpos a b : 0 < b -> a <= 0 -> ceil_quot a b <= 0.
Proof.
  intros Hb Ha. unfold ceil_quot.
  assert (0 <= (- a) / b) by (apply Z.div_pos; lia). lia.
Qed.

Lemma round_half_even_pos n d : 0 < d -> d <= n -> 1 <= round_half_even n d.
Proof.
  intros Hd Hn. unfold round_half_even.
  assert (1 <= n / d) by (apply Z.div_le_lower_bound; lia).
  destruct (_ <? _); [lia|]. destruct (_ <? _); [lia|]. destruct (Z.even _); lia.
Qed.

Lemma round_half_even_nonpos n d : 0 < d -> n <= 0 -> round_half_even n d <= 0.
Proof.
  intros Hd Hn. unfold round_half_even.
  pose proof (Z.div_mod n d ltac:(lia)) as Hdm.
  pose proof (Z.mod_pos_bound n d Hd) as Hr.
  assert (n / d <= 0) by (apply Z.div_le_upper_bound; lia).
  destruct (Z.ltb_spec (2 * (n mod d)) d); [lia|].
  assert (n / d <= -1) by nia.
  destruct (_ <? _); [lia|]. destruct (Z.even _); lia.
Qed.

Lemma ratio_ge_pow2_log2 n d :
  0 < n -> 0 < d -> ratio_ge_pow2 n d (Z.log2 n - Z.log2 d - 1) = true.
Proof.
  intros Hn Hd. unfold ratio_ge_pow2.
  pose proof (Z.log2_spec n Hn) as [Hn1 Hn2].
  pose proof (Z.log2_spec d Hd) as [Hd1 Hd2].
  pose proof (Z.log2_nonneg n). pose proof (Z.log2_nonneg d).
  set (ln := Z.log2 n) in *. set (ld := Z.log2 d) in *.
  destruct (Z.leb_spec 0 (ln - ld - 1)) as [He|He].
  - apply Z.leb_le.
    assert (2 ^ ln = 2 ^ Z.succ ld * 2 ^ (ln - ld - 1)) as Hp
      by (rewrite <- Z.pow_add_r by lia; f_equal; lia).
    assert (0 < 2 ^ (ln - ld - 1)) by (apply Z.pow_pos_nonneg; lia).
    nia.
  - apply Z.leb_le.
    assert (2 ^ Z.succ ld = 2 ^ ln * 2 ^ (- (ln - ld - 1))) as Hp
      by (rewrite <- Z.pow_add_r by lia; f_equal; lia).
    assert (0 < 2 ^ (- (ln - ld - 1))) by (apply Z.pow_pos_nonneg; lia).
    nia.
Qed.

Lemma ratio_ge_pow2_mono n d e e' :
  0 < n -> 0 < d -> e' <= e ->
  ratio_ge_pow2 n d e = true -> ratio_ge_pow2 n d e' = true.
Proof.
  intros Hn Hd Hee. unfold ratio_ge_pow2.
  destruct (Z.leb_spec 0 e) as [He|He], (Z.leb_spec 0 e') as [He'|He'];
    rewrite !Z.leb_le; intros H; try lia.
  - assert (2 ^ e' <= 2 ^ e) by (apply Z.pow_le_mono_r; lia). nia.
  - assert (1 <= 2 ^ e) by (apply (Z.pow_le_mono_r 2 0 e); lia).
    assert (1 <= 2 ^ (- e')) by (apply (Z.pow_le_mono_r 2 0 (- e')); lia).
    nia.
  - assert (2 ^ (- e) <= 2 ^ (- e')) by (apply Z.pow_le_mono_r; lia). nia.
Qed.

Lemma ratio_ge_pow2_ilog2 n d :
  0 < n -> 0 < d -> ratio_ge_pow2 n d (ilog2_ratio n d) = true.
Proof.
  intros Hn Hd. unfold ilog2_ratio.
  destruct (ratio_ge_pow2 n d (Z.log2 n - Z.log2 d)) eqn:H; [exact H|].
  now apply ratio_ge_pow2_log2.
Qed.

Lemma ilog2_ratio_lower n d : Z.log2 n - Z.log2 d - 1 <= ilog2_ratio n d.
Proof. unfold ilog2_ratio. destruct (ratio_ge_pow2 _ _ _); lia. Qed.

(** A positive ratio that is at least the smallest positive number of the
    format rounds to a positive number. *)
Lemma round_ratio_pos f n d :
  1 <= prec f -> 0 < n -> 0 < d -> ratio_ge_pow2 n d (emin f) = true ->
  1 <= fst (round_ratio f n d) /\
  Z.log2 n - Z.log2 d - prec f <= snd (round_ratio f n d).
Proof.
  intros Hp Hn Hd Hmin. unfold round_ratio.
  destruct (Z.eqb_spec n 0); [lia|].
  rewrite Z.abs_eq by lia. cbn [fst snd].
  pose proof (ilog2_ratio_lower n d).
  set (e := Z.max _ _).
  assert (He : ratio_ge_pow2 n d e = true).
  { unfold e. destruct (Z.max_spec (ilog2_ratio n d - prec f + 1) (emin f)) as [[_ ->]|[_ ->]].
    - exact Hmin.
    - apply (ratio_ge_pow2_mono n d (ilog2_ratio n d)); [lia..|].
      now apply ratio_ge_pow2_ilog2. }
  split; [|unfold e; lia].
  unfold ratio_ge_pow2 in He.
  destruct (Z.leb_spec 0 e).
  - apply Z.leb_le in He. apply round_half_even_pos; [|exact He].
    assert (0 < 2 ^ e) by (apply Z.pow_pos_nonneg; lia). nia.
  - apply Z.leb_le in He. now apply round_half_even_pos.
Qed.

Lemma round_ratio_nonpos f n d :
  0 < d -> n <= 0 -> fst (round_ratio f n d) <= 0.
Proof.
  intros Hd Hn. unfold round_ratio.
  destruct (Z.eqb_spec n 0); [simpl; lia|]. cbn [fst].
  set (e := Z.max _ _).
  destruct (Z.leb_spec 0 e).
  - apply round_half_even_nonpos; [|lia].
    assert (0 < 2 ^ e) by (apply Z.pow_pos_nonneg; lia). nia.
  - apply round_half_even_nonpos; [lia|].
    assert (0 < 2 ^ (- e)) by (apply Z.pow_pos_nonneg; lia). nia.
Qed.

Lemma ceil_pos x : 1 <= fst x -> 1 <= ceil x.
Proof.
  intros Hm. unfold ceil. destruct (Z.leb_spec 0 (snd x)).
  - assert (0 < 2 ^ snd x) by (apply Z.pow_pos_nonneg; lia). nia.
  - apply ceil_quot_pos; [apply Z.pow_pos_nonneg; lia|exact Hm].
Qed.

Lemma ceil_nonpos x : fst x <= 0 -> ceil x <= 0.
Proof.
  intros Hm. unfold ceil. destruct (Z.leb_spec 0 (snd x)).
  - assert (0 < 2 ^ snd x) by (apply Z.pow_pos_nonneg; lia). nia.
  - apply ceil_quot_nonpos; [apply Z.pow_pos_nonneg; lia|exact Hm].
Qed.

Lemma to_float32_nonpos x : fst x <= 0 -> fst (to_float32 x) <= 0.
Proof.
  intros Hm. unfold to_float32. destruct (Z.leb_spec 0 (snd x)).
  - apply round_ratio_nonpos; [lia|].
    assert (0 < 2 ^ snd x) by (apply Z.pow_pos_nonneg; lia). nia.
  - apply round_ratio_nonpos; [apply Z.pow_pos_nonneg; lia|exact Hm].
Qed.

Lemma to_float32_pos x : 1 <= fst x -> - 149 <= snd x -> 1 <= fst (to_float32 x).
Proof.
  intros Hm He. unfold to_float32. destruct (Z.leb_spec 0 (snd x)).
  - assert (0 < 2 ^ snd x) by (apply Z.pow_pos_nonneg; lia).
    apply round_ratio_pos; [simpl; lia | nia | lia |].
    unfold ratio_ge_pow2. simpl emin. cbn [Z.leb Z.compare].
    apply Z.leb_le. assert (0 < 2 ^ (- -149)) by (apply Z.pow_pos_nonneg; lia). nia.
  - assert (0 < 2 ^ (- snd x)) by (apply Z.pow_pos_nonneg; lia).
    apply round_ratio_pos; [simpl; lia | lia | lia |].
    unfold ratio_ge_pow2. simpl emin. cbn [Z.leb Z.compare].
    apply Z.leb_le.
    assert (2 ^ (- snd x) <= 2 ^ (- -149)) by (apply Z.pow_le_mono_r; lia). nia.
Qed.

Lemma float32_ceil_div_nonpos a b : 0 < b -> a <= 0 -> float32_ceil_div a b <= 0.
Proof.
  intros Hb Ha. unfold float32_ceil_div, astype_int32.
  assert (ceil (to_float32 (true_div a b)) <= 0).
  { apply ceil_nonpos, to_float32_nonpos. unfold true_div.
    rewrite Z.sgn_pos, Z.abs_eq by lia. apply round_ratio_nonpos; lia. }
  lia.
Qed.

Lemma float32_ceil_div_pos a b :
  0 < b < 2 ^ 31 -> 1 <= a < 2 ^ 31 -> 1 <= float32_ceil_div a b.
Proof.
  intros Hb Ha. unfold float32_ceil_div, astype_int32.
  assert (1 <= ceil (to_float32 (true_div a b))); [|lia].
  unfold true_div. rewrite Z.sgn_pos, Z.abs_eq, Z.mul_1_r by lia.
  destruct (round_ratio_pos binary64 a b) as [Hm He]; [simpl; lia | lia | lia | |].
  { unfold ratio_ge_pow2. simpl emin. cbn [Z.leb Z.compare]. apply Z.leb_le.
    assert (2 ^ 31 <= 2 ^ (- -1074)) by (apply Z.pow_le_mono_r; lia). nia. }
  apply ceil_pos, to_float32_pos; [exact Hm|].
  simpl prec in He.
  assert (Z.log2 b < 31) by (apply Z.log2_lt_pow2; lia).
  pose proof (Z.log2_nonneg a). lia.
Qed.
End Floats.

(** The page counts of some lengths: exact where the quotient is small, one
    short at 2^25 + 1 tokens in pages of 2^25 (the binary32 quotient is 1.0),
    saturated at the top of [int32], zero when the quotient underflows. *)
Example float32_ceil_div_values :
  float32_ceil_div 20 16 = 2 /\ float32_ceil_div 16 16 = 1 /\
  float32_ceil_div 0 16 = 0 /\ float32_ceil_div (- 20) 16 = - 1 /\
  float32_ceil_div 33554433 33554432 = 1 /\
  float32_ceil_div (- 33554435) 2 = - 16777218 /\
  float32_ceil_div (2 ^ 31 - 1) 1 = 2 ^ 31 - 1 /\
  float32_ceil_div 1 (2 ^ 200) = 0.
Proof. repeat split; vm_compute; reflexivity. Qed.

(** ** How [assign_prefill_step_pages] ends *)

Section PrefillOutcome.
Variable cfg : config.

Lemma range_pos n : 0 < n -> range n = 0 :: seqZ 1 (n - 1).
Proof. intros Hn. unfold range. now rewrite seqZ_cons by lia. Qed.

(** The loop never gets past its first iteration: the assertion fails, or
    the write of line 123 does. *)
Lemma prefill_loop_raises slot x xs st :
  for_each (x :: xs) (prefill_body cfg slot) st
  = Raised (if some_page_free cfg st then ValueError else all_in_use) st.
Proof.
  simpl. unfold prefill_body. destruct (some_page_free cfg st); reflexivity.
Qed.

Lemma prefill_outcome st slot L :
  assign_prefill_step_pages cfg st slot L
  = if page_size cfg =? 0 then Raised ZeroDivisionError st
    else if negb (in_int32 L) then Raised OverflowError st
    else if negb (in_int32 ((L - 1) mod page_size cfg))
    then Raised OverflowError (prefill_half_stored cfg st slot L)
    else if float32_ceil_div L (page_size cfg) <=? 0
    then Returned (prefill_stored cfg st slot L)
    else Raised (if some_page_free cfg st then ValueError else all_in_use)
                (prefill_stored cfg st slot L).
Proof.
  unfold assign_prefill_step_pages.
  destruct (page_size cfg =? 0); [reflexivity|].
  destruct (negb (in_int32 L)); [reflexivity|].
  destruct (negb (in_int32 _)); [reflexivity|].
  destruct (Z.leb_spec (float32_ceil_div L (page_size cfg)) 0) as [Hk|Hk].
  - unfold range. now rewrite seqZ_nil.
  - rewrite range_pos by lia. now rewrite prefill_loop_raises.
Qed.

(** Whichever way the call ends, the pool and the rows are as before. *)
Lemma prefill_page_indices st slot L :
  page_indices (final_state (assign_prefill_step_pages cfg st slot L))
  = page_indices st.
Proof.
  rewrite prefill_outcome.
  repeat match goal with |- context [if ?b then _ else _] => destruct b end;
    reflexivity.
Qed.

Lemma prefill_rows st slot L :
  seq_page_indices (final_state (assign_prefill_step_pages cfg st slot L))
  = seq_page_indices st.
Proof.
  rewrite prefill_outcome.
  repeat match goal with |- context [if ?b then _ else _] => destruct b end;
    reflexivity.
Qed.

Lemma foldl_ignore {S I} (l : list I) (s : S) : foldl (fun s _ => s) s l = s.
Proof. induction l as [|x l IH]; simpl; auto. Qed.

Lemma release_slot_page_indices st slot :
  page_indices (release_slot cfg st slot) = page_indices st.
Proof. unfold release_slot. simpl. now rewrite foldl_ignore. Qed.

Lemma step_page_indices st c :
  page_indices (final_state (step cfg st c)) = page_indices st.
Proof.
  destruct c; simpl.
  - apply prefill_page_indices.
  - reflexivity.
  - apply release_slot_page_indices.
Qed.

(** However long the run, the pool is as [setup] left it. *)
Lemma reachable_page_indices st :
  reachable cfg st -> page_indices st = arange (num_pages cfg).
Proof.
  induction 1 as [|st c st' _ IH Hstep]; [reflexivity|].
  rewrite <- IH, <- (step_page_indices st c), Hstep. reflexivity.
Qed.
End PrefillOutcome.

(** C2. Every call leaves [page_indices] as it found it: [release_slot],
    [assign_prefill_step_pages] and [assign_decode_step_pages], for every
    starting state, slot and length, whether the call returns or raises. *)
Theorem page_indices_unchanged_by_every_call (cfg : config) (st : state)
    (slot true_length : Z) :
  page_indices (release_slot cfg st slot) = page_indices st /\
  page_indices (final_state (assign_prefill_step_pages cfg st slot true_length))
    = page_indices st /\
  page_indices (final_state (assign_decode_step_pages cfg st)) = page_indices st.
Proof.
  split; [|split].
  - apply release_slot_page_indices.
  - apply prefill_page_indices.
  - reflexivity.
Qed.

(** ** The pool as [setup] leaves it *)

Section FreshPool.
Variable cfg : config.

Lemma count_nonzero_all l :
  Forall (fun x => x <> 0) l -> count_nonzero l = size l.
Proof.
  unfold count_nonzero, size. induction 1 as [|x l Hx _ IH]; [reflexivity|].
  rewrite filter_cons_True by exact Hx. simpl length. lia.
Qed.

Lemma arange_tail n : 0 < n -> drop 1 (arange n) = seqZ 1 (n - 1).
Proof. intros Hn. unfold arange. now rewrite seqZ_cons by lia. Qed.

Lemma arange_tail_nonzero n :
  0 < n -> Forall (fun x => x <> 0) (drop 1 (arange n)).
Proof.
  intros Hn. rewrite arange_tail by exact Hn.
  apply Forall_seqZ. intros k Hk. lia.
Qed.

Lemma arange_tail_size n : 0 < n -> size (drop 1 (arange n)) = n - 1.
Proof.
  intros Hn. rewrite arange_tail by exact Hn.
  unfold size. rewrite length_seqZ. lia.
Qed.

(** As [setup] leaves it, the pool passes for exhausted. *)
Lemma fresh_pool_not_free st :
  0 < num_pages cfg ->
  page_indices st = page_indices (setup cfg) ->
  some_page_free cfg st = false.
Proof.
  intros Hn Hpool. unfold some_page_free. rewrite Hpool. simpl.
  rewrite count_nonzero_all by now apply arange_tail_nonzero.
  rewrite arange_tail_size by exact Hn.
  now rewrite Z.eqb_refl.
Qed.
End FreshPool.

(** ** The page the search finds *)

Section Search.
Context {A : Type} (p : A -> bool).

Lemma indices_from_shift (l : list A) s d :
  indices_from p (s + d) l = Z.add d <$> indices_from p s l.
Proof.
  revert s. induction l as [|x l IH]; intros s; simpl; [reflexivity|].
  replace (s + d + 1) with (s + 1 + d) by lia. rewrite IH.
  destruct (p x); simpl; [f_equal; lia | reflexivity].
Qed.

Lemma indices_from_length (l : list A) s :
  (length (indices_from p s l) + length (filter (fun x => p x = false) l)
   = length l)%nat.
Proof.
  revert s. induction l as [|x l IH]; intros s; simpl; [reflexivity|].
  specialize (IH (s + 1)).
  destruct (p x) eqn:Hp.
  - rewrite filter_cons_False by congruence. simpl. lia.
  - rewrite filter_cons_True by assumption. simpl. lia.
Qed.
End Search.

Section FreePage.
Variable cfg : config.

Lemma count_nonzero_free_pages st :
  count_nonzero (drop 1 (page_indices st)) + free_page_count st
  = size (drop 1 (page_indices st)).
Proof.
  unfold count_nonzero, free_page_count, free_pages, size.
  pose proof (indices_from_length (fun x => x =? 0) (drop 1 (page_indices st)) 1) as H.
  rewrite (list_filter_iff (fun x => x <> 0) (fun x => (x =? 0) = false)).
  - lia.
  - intros x. symmetry. apply Z.eqb_neq.
Qed.

(** The assertion passes as soon as one usable page is free. *)
Lemma some_page_free_iff st :
  size (page_indices st) = num_pages cfg -> 0 < num_pages cfg ->
  some_page_free cfg st = true <-> 0 < free_page_count st.
Proof.
  intros Hsz Hn. unfold some_page_free.
  pose proof (count_nonzero_free_pages st) as Hsum.
  assert (size (drop 1 (page_indices st)) = num_pages cfg - 1) as Hd.
  { unfold size in *. rewrite length_drop. lia. }
  rewrite negb_true_iff, Z.eqb_neq.
  assert (0 <= free_page_count st) by (unfold free_page_count, size; lia).
  lia.
Qed.

(** The search answers with a position in [page_indices[1:]], which is one
    less than the id of the first free usable page. *)
Lemma free_page_idx_off_by_one st p rest :
  free_pages st = p :: rest -> free_page_idx st = p - 1.
Proof.
  unfold free_pages, free_page_idx, where_size. intros Hfree.
  change 1 with (0 + 1) in Hfree at 1. rewrite indices_from_shift in Hfree.
  destruct (indices_from _ 0 _) as [|q qs]; [discriminate|].
  injection Hfree as <- _. vm_compute getitem. lia.
Qed.
End FreePage.

(** ** The allocator at concrete pools *)

(** Membership in a list given by its elements. *)
Ltac in_list :=
  repeat first [apply list_elem_of_here | apply list_elem_of_further].

(** C1. The no-aliasing invariant does not hold on the code: straight after
    [setup] (a reachable state) pages 1 and 2 of three are flagged in use
    while no slot owns a page, so the owned entries are not the set of pages
    flagged in use. *)
Theorem no_aliasing_invariant_broken :
  reachable cfg3 (setup cfg3) /\
  in_use_pages (setup cfg3) = [1; 2] /\
  owned_pages (setup cfg3) = [] /\
  ~ pool_matches (setup cfg3).
Proof.
  split; [|split; [|split]].
  - constructor.
  - reflexivity.
  - reflexivity.
  - intros H. specialize (H 1). destruct H as [_ H].
    assert (Hin : 1 ∈ in_use_pages (setup cfg3)) by (vm_compute; in_list).
    apply H in Hin. vm_compute in Hin. now apply elem_of_nil in Hin.
Qed.



(** C4. Allocation is not first-fit over the usable pages.  With page 1 taken
    and page 2 free, the first free usable page is 2, yet the search of line
    121 answers 1 (a position in [page_indices[1:]], one less than the id);
    with pages 1 and 2 both free it answers 0, the reserved sentinel.  The
    prefill that needs the page then raises [ValueError]: no id is recorded
    and no page is marked in use. *)
Theorem allocation_is_not_first_fit :
  (let st := empty_table [0; 1; 0] in
   free_pages st = [2] /\
   free_page_idx st = 1 /\
   assign_prefill_step_pages cfg3 st 0 1
   = Raised ValueError
       (State [0; 1; 0] [1; 0] [1; 0] [0; 0] [[0; 0; 0; 0]; [0; 0; 0; 0]])) /\
  (let st := empty_table [0; 0; 0] in
   free_pages st = [1; 2] /\
   free_page_idx st = 0 /\
   assign_prefill_step_pages cfg3 st 0 1
   = Raised ValueError
       (State [0; 0; 0] [1; 0] [1; 0] [0; 0] [[0; 0; 0; 0]; [0; 0; 0; 0]])).
Proof. repeat split; vm_compute; reflexivity. Qed.

(** C5. Scenario A does not end with two distinct pages out of 1..9.  The
    lengths come out as specified ([seq_pages] 2, [seq_page_cursor] 3), but
    the call raises and records no page id: the assertion on the pool as
    [setup] leaves it, [ValueError] on a pool whose nine usable pages are all
    free or whose pages 1 and 2 are taken. *)
Theorem scenario_A_pages_not_distinct :
  assign_prefill_step_pages cfgA (setup cfgA) 0 20
  = Raised (AssertionError "All pages are in use.")
      (State [0; 1; 2; 3; 4; 5; 6; 7; 8; 9] [20; 0] [2; 0] [3; 0]
             [[0; 0; 0; 0]; [0; 0; 0; 0]]) /\
  assign_prefill_step_pages cfgA (empty_table [0; 0; 0; 0; 0; 0; 0; 0; 0; 0]) 0 20
  = Raised ValueError
      (State [0; 0; 0; 0; 0; 0; 0; 0; 0; 0] [20; 0] [2; 0] [3; 0]
             [[0; 0; 0; 0]; [0; 0; 0; 0]]) /\
  assign_prefill_step_pages cfgA (empty_table [0; 1; 1; 0; 0; 0; 0; 0; 0; 0]) 0 20
  = Raised ValueError
      (State [0; 1; 1; 0; 0; 0; 0; 0; 0; 0] [20; 0] [2; 0] [3; 0]
             [[0; 0; 0; 0]; [0; 0; 0; 0]]).
Proof. repeat split; vm_compute; reflexivity. Qed.

(** C6. Scenario C does not advance the slot.  With page size 4, a slot of
    4 tokens in one page goes through [assign_decode_step_pages]: the call
    raises [TypeError] at its first statement and the table is as before,
    length 4 and one page, on a pool with a free page and on the pool as
    [setup] leaves it alike. *)
Theorem scenario_C_decode_raises :
  (let st := State [0; 1; 0] [4; 0] [1; 0] [3; 0] [[1; 0; 0; 0]; [0; 0; 0; 0]] in
   assign_decode_step_pages cfg3x4 st = Raised TypeError st /\
   getitem 0 (seq_lengths (final_state (assign_decode_step_pages cfg3x4 st))) 0 = 4 /\
   getitem 0 (seq_pages (final_state (assign_decode_step_pages cfg3x4 st))) 0 = 1) /\
  (let st := State (page_indices (setup cfg3x4)) [4; 0] [1; 0] [3; 0]
                   [[0; 0; 0; 0]; [0; 0; 0; 0]] in
   assign_decode_step_pages cfg3x4 st = Raised TypeError st).
Proof. repeat split; reflexivity. Qed.

(** C7. A prefill of two pages on a pool with one free usable page does not
    fail with the exhaustion assertion.  With page 2 the only free page and
    page size 16, the call for 20 tokens passes the assertion and raises
    [ValueError] at the first write of a page id; the slot is left with
    length 20 and page count 2 and no page id. *)
Theorem one_free_page_prefill_raises_value_error :
  let st := empty_table [0; 1; 0] in
  let st' := State [0; 1; 0] [20; 0] [2; 0] [3; 0] [[0; 0; 0; 0]; [0; 0; 0; 0]] in
  free_page_count st = 1 /\
  float32_ceil_div 20 (page_size cfg3) = 2 /\
  some_page_free cfg3 st = true /\
  assign_prefill_step_pages cfg3 st 0 20 = Raised ValueError st' /\
  owned st' 0 = [0; 0] /\
  free_pages st' = [2].
Proof. repeat split; vm_compute; reflexivity. Qed.


(** On the pool as [setup] leaves it, not every prefill of a positive
    length fails the assertion: a length of 2^31 does not fit [int32] and
    raises [OverflowError] with nothing stored, and with a page size of
    2^200 the binary32 quotient of one token is 0, no page is asked for and
    the call returns. *)
Lemma fresh_pool_prefill_without_assertion :
  (1 <= 2 ^ 31 /\
   assign_prefill_step_pages cfg3 (setup cfg3) 0 (2 ^ 31)
   = Raised OverflowError (setup cfg3)) /\
  (let cfg := Config 2 (2 ^ 200) (2 ^ 200) 3 in
   0 < num_pages cfg /\ 0 < page_size cfg /\
   returns (assign_prefill_step_pages cfg (setup cfg) 0 1) = true) /\
  ~ (forall cfg st slot true_length,
       0 < num_pages cfg -> 0 < page_size cfg ->
       page_indices st = page_indices (setup cfg) -> 1 <= true_length ->
       exists st',
         assign_prefill_step_pages cfg st slot true_length
         = Raised (AssertionError "All pages are in use.") st').
Proof.
  split; [split; [lia | vm_compute; reflexivity]|].
  split; [repeat split; vm_compute; reflexivity|].
  intros H.
  destruct (H cfg3 (setup cfg3) 0 (2 ^ 31)) as [st' Hst'];
    [reflexivity | reflexivity | reflexivity | lia |].
  vm_compute in Hst'. discriminate.
Qed.

(** C10. [setup] fills [page_indices] with 0, 1, ..., num_pages-1, so all
    num_pages-1 entries of [page_indices[1:]] are nonzero; with the pool in
    that state (and a page size that fits [int32]) every
    [assign_prefill_step_pages] with [1 <= true_length < 2^31] fails the
    assertion "All pages are in use." with no page id written to any slot. *)
Theorem fresh_pool_fails_every_prefill (cfg : config) :
  0 < num_pages cfg -> 0 < page_size cfg < 2 ^ 31 ->
  page_indices (setup cfg) = seqZ 0 (num_pages cfg) /\
  Forall (fun x => x <> 0) (drop 1 (page_indices (setup cfg))) /\
  size (drop 1 (page_indices (setup cfg))) = num_pages cfg - 1 /\
  (forall st slot true_length,
     page_indices st = page_indices (setup cfg) -> 1 <= true_length < 2 ^ 31 ->
     exists st',
       assign_prefill_step_pages cfg st slot true_length
       = Raised (AssertionError "All pages are in use.") st' /\
       seq_page_indices st' = seq_page_indices st).
Proof.
  intros Hn Hps. split; [reflexivity|]. split; [|split].
  - now apply arange_tail_nonzero.
  - now apply arange_tail_size.
  - intros st slot L Hpool HL. rewrite prefill_outcome.
    destruct (Z.eqb_spec (page_size cfg) 0); [lia|].
    assert (in_int32 L = true) as ->
      by (apply andb_true_iff; split; [apply Z.leb_le|apply Z.ltb_lt]; lia).
    pose proof (Z.mod_pos_bound (L - 1) (page_size cfg) ltac:(lia)).
    assert (in_int32 ((L - 1) mod page_size cfg) = true) as ->
      by (apply andb_true_iff; split; [apply Z.leb_le|apply Z.ltb_lt]; lia).
    simpl negb. cbv iota.
    pose proof (float32_ceil_div_pos L (page_size cfg) Hps HL).
    destruct (Z.leb_spec (float32_ceil_div L (page_size cfg)) 0); [lia|].
    rewrite (fresh_pool_not_free cfg st Hn Hpool).
    eexists. split; reflexivity.
Qed.

(** The fresh pool of Scenario A (page_size 16, num_pages 10) refuses a
    prefill of 20 tokens. *)
Lemma fresh_pool_fails_every_prefill_witness :
  exists st', assign_prefill_step_pages cfgA (setup cfgA) 0 20
              = Raised (AssertionError "All pages are in use.") st' /\
              seq_page_indices st' = seq_page_indices (setup cfgA).
Proof.
  destruct (fresh_pool_fails_every_prefill cfgA) as (_ & _ & _ & Hpre);
    [reflexivity | split; reflexivity |].
  apply Hpre; [reflexivity | split; [lia | reflexivity]].
Defined.

(** ** The prefill storage writer *)

Section Writer.
Variable cfg : config.
Context {V : Type}.
Implicit Types new : list V.

(** From the second page on, the writer cuts the range of the page before. *)
Lemma writer_block_later (new : list V) i :
  0 < page_size cfg -> 1 <= i -> i * page_size cfg <= size new ->
  dynamic_slice_in_dim new ((i - 1) * page_size cfg) (page_size cfg)
  = page_range cfg new (i - 1).
Proof.
  intros Hps Hi Hfit. unfold dynamic_slice_in_dim, page_range, normalize_index.
  destruct (Z.ltb_spec ((i - 1) * page_size cfg) 0) as [?|_]; [nia|].
  do 3 f_equal. nia.
Qed.

(** For the first page the start is [-page_size], which counts from the end:
    the writer cuts the last [page_size] positions. *)
Lemma writer_block_first (new : list V) :
  0 < page_size cfg -> page_size cfg <= size new ->
  dynamic_slice_in_dim new ((0 - 1) * page_size cfg) (page_size cfg)
  = take (Z.to_nat (page_size cfg))
         (drop (Z.to_nat (size new - page_size cfg)) new).
Proof.
  intros Hps Hfit. unfold dynamic_slice_in_dim, normalize_index.
  destruct (Z.ltb_spec ((0 - 1) * page_size cfg) 0) as [_|?]; [|lia].
  do 3 f_equal. lia.
Qed.
End Writer.

(** C8. The writer does not put positions [i*page_size, (i+1)*page_size) in
    the row of page [i].  With page size 2, a slot owning pages 1 and 2 and
    keys/values for positions 0..3: row 1 (page index 0) receives positions
    2..3 and row 2 (page index 1) receives positions 0..1, where the ranges
    specified are 0..1 and 2..3. *)
Theorem prefill_writer_shifts_ranges :
  let cfg := Config 2 8 2 3 in
  let st := State [0; 1; 1] [4; 0] [2; 0] [1; 0] [[1; 2; 0; 0]; [0; 0; 0; 0]] in
  let blank := [[0; 0]; [0; 0]; [0; 0]] in
  let key := [10; 11; 12; 13] in
  let value := [20; 21; 22; 23] in
  update_prefill_step_pages cfg st blank blank key value 0
  = ([[0; 0]; [12; 13]; [10; 11]], [[0; 0]; [22; 23]; [20; 21]]) /\
  page_of st 0 0 = 1 /\ page_range cfg key 0 = [10; 11] /\
  page_of st 0 1 = 2 /\ page_range cfg key 1 = [12; 13] /\
  getitem [] (fst (update_prefill_step_pages cfg st blank blank key value 0))
          (page_of st 0 0) <> page_range cfg key 0 /\
  getitem [] (fst (update_prefill_step_pages cfg st blank blank key value 0))
          (page_of st 0 1) <> page_range cfg key 1.
Proof. repeat split; try reflexivity; vm_compute; congruence. Qed.

(** ** Runs from [setup]: no slot ever becomes active

    No prefill of a positive length returns and no decode step returns, so
    in a run of returning calls every length stays at or below zero, no slot
    owns a page, and the pages flagged in use (1 .. num_pages-1) are owned by
    nobody. *)

Lemma getitem_Forall {A} (P : A -> Prop) d (l : list A) i :
  Forall P l -> P d -> P (getitem d l i).
Proof.
  intros Hl Hd. unfold getitem.
  destruct (l !! _) as [x|] eqn:Hx; simpl; [|assumption].
  eapply Forall_lookup_1; eauto.
Qed.

Lemma in_int32_spec z : in_int32 z = true <-> - 2 ^ 31 <= z < 2 ^ 31.
Proof. unfold in_int32. rewrite andb_true_iff, Z.leb_le, Z.ltb_lt. tauto. Qed.

Lemma wrap_int32_small x : - 2 ^ 31 <= x < 2 ^ 31 -> wrap_int32 x = x.
Proof. intros Hx. unfold wrap_int32. rewrite Z.mod_small; lia. Qed.

Section Idle.
Variable cfg : config.
Hypothesis page_size_ok : 0 < page_size cfg < 2 ^ 31.

(** A prefill that returns stored a length that is not positive. *)
Lemma prefill_returned st st' slot L :
  assign_prefill_step_pages cfg st slot L = Returned st' ->
  L <= 0 /\ st' = prefill_stored cfg st slot L.
Proof.
  rewrite prefill_outcome.
  destruct (page_size cfg =? 0); [discriminate|].
  destruct (in_int32 L) eqn:HL; [|discriminate]. simpl negb. cbv iota.
  destruct (negb (in_int32 _)); [discriminate|].
  destruct (Z.leb_spec (float32_ceil_div L (page_size cfg)) 0) as [Hk|Hk];
    [|discriminate].
  intros [= <-]. split; [|reflexivity].
  destruct (Z.le_gt_cases L 0) as [|Hpos]; [assumption|].
  apply in_int32_spec in HL.
  pose proof (float32_ceil_div_pos L (page_size cfg) page_size_ok). lia.
Qed.

Lemma idle_setup : idle (setup cfg).
Proof. unfold idle, setup, zeros. simpl. apply Forall_replicate. lia. Qed.

Lemma idle_release st slot : idle st -> idle (release_slot cfg st slot).
Proof.
  intros Hl. unfold release_slot, idle. rewrite foldl_ignore. simpl.
  unfold dynamic_update_index_in_dim. apply Forall_insert; [assumption|lia].
Qed.

Lemma reachable_idle st : reachable cfg st -> idle st.
Proof.
  induction 1 as [|st c st' Hreach IH Hstep]; [apply idle_setup|].
  destruct c; simpl in Hstep.
  - apply prefill_returned in Hstep as [HL ->].
    unfold idle, prefill_stored, dynamic_update_index_in_dim. simpl.
    now apply Forall_insert.
  - discriminate.
  - injection Hstep as <-. now apply idle_release.
Qed.

Lemma idle_owns_nothing st : idle st -> owned_pages st = [].
Proof.
  intros Hl. unfold owned_pages.
  induction (slots st) as [|s ss IH]; [reflexivity|].
  rewrite fmap_cons. cbn [concat]. rewrite IH, app_nil_r.
  unfold active.
  pose proof (getitem_Forall (fun n => n <= 0) 0 (seq_lengths st) s Hl (Z.le_refl 0)) as Hs.
  simpl in Hs. destruct (Z.ltb_spec 0 (getitem 0 (seq_lengths st) s)); [lia|reflexivity].
Qed.

(** From two pages on, the set of owned pages differs from the set of pages
    flagged in use in every state a run reaches. *)
Lemma reachable_never_matches st :
  2 <= num_pages cfg -> reachable cfg st ->
  owned_pages st = [] /\ 1 ∈ in_use_pages st /\ ~ pool_matches st.
Proof.
  intros Hn Hreach.
  pose proof (idle_owns_nothing st (reachable_idle st Hreach)) as Hown.
  assert (Hin : 1 ∈ in_use_pages st).
  { unfold in_use_pages. rewrite (reachable_page_indices cfg st Hreach).
    unfold arange. rewrite seqZ_cons by lia. rewrite seqZ_cons by lia.
    simpl. constructor. }
  split; [assumption|]. split; [assumption|].
  intros Hmatch. apply Hmatch in Hin. rewrite Hown in Hin.
  now apply elem_of_nil in Hin.
Qed.
End Idle.

(** With a page size so large that the binary32 quotient underflows to 0, a
    prefill of one token needs no page and returns: the slot is active. *)
Lemma huge_page_size_activates_slot :
  let cfg := Config 2 (2 ^ 200) (2 ^ 200) 3 in
  let st := State [0; 1; 2] [1; 0] [0; 0] [0; 0] [[0]; [0]] in
  assign_prefill_step_pages cfg (setup cfg) 0 1 = Returned st /\
  reachable cfg st /\ active st 0 = true.
Proof.
  intros cfg st.
  assert (H : assign_prefill_step_pages cfg (setup cfg) 0 1 = Returned st)
    by (vm_compute; reflexivity).
  split; [exact H|]. split; [|reflexivity].
  apply (reachable_step cfg (setup cfg) (Prefill 0 1)); [constructor|exact H].
Qed.

(** ** [release_slot]: what it clears, what it keeps, which slot it takes *)

Section Release.
Variable cfg : config.

Lemma clamp_index_bounds n i : 0 < n -> 0 <= clamp_index n i < n.
Proof. intros Hn. unfold clamp_index. lia. Qed.

Lemma clamp_index_idem n i : 0 < n -> clamp_index n (clamp_index n i) = clamp_index n i.
Proof.
  intros Hn. pose proof (clamp_index_bounds n i Hn) as Hb.
  unfold clamp_index at 1. unfold normalize_index.
  destruct (Z.ltb_spec (clamp_index n i) 0); lia.
Qed.

Lemma dynamic_update_twice {A} (l : list A) v w i :
  dynamic_update_index_in_dim (dynamic_update_index_in_dim l w i) v i
  = dynamic_update_index_in_dim l v i.
Proof.
  unfold dynamic_update_index_in_dim, size.
  rewrite length_insert. apply list_insert_insert_eq.
Qed.

Lemma getitem_dynamic_update {A} (d : A) (l : list A) v i :
  l <> [] -> getitem d (dynamic_update_index_in_dim l v i) i = v.
Proof.
  intros Hl. unfold getitem, dynamic_update_index_in_dim, size.
  rewrite length_insert.
  assert (0 < Z.of_nat (length l)) as Hn by (destruct l; [congruence|simpl; lia]).
  pose proof (clamp_index_bounds _ i Hn).
  rewrite list_lookup_insert_eq by lia. reflexivity.
Qed.

Lemma getitem_dynamic_update_default {A} (d : A) (l : list A) i :
  getitem d (dynamic_update_index_in_dim l d i) i = d.
Proof.
  destruct l as [|x l]; [reflexivity|]. now apply getitem_dynamic_update.
Qed.

Lemma dynamic_update_clamped {A} (l : list A) v i :
  l <> [] ->
  dynamic_update_index_in_dim l v (clamp_index (size l) i)
  = dynamic_update_index_in_dim l v i.
Proof.
  intros Hl. unfold dynamic_update_index_in_dim.
  rewrite clamp_index_idem; [reflexivity|].
  unfold size. destruct l; [congruence|simpl; lia].
Qed.

Lemma release_slot_fields st slot :
  release_slot cfg st slot
  = State (page_indices st)
          (dynamic_update_index_in_dim (seq_lengths st) 0 slot)
          (dynamic_update_index_in_dim (seq_pages st) 0 slot)
          (dynamic_update_index_in_dim (seq_page_cursor st) 0 slot)
          (dynamic_update_index_in_dim (seq_page_indices st)
             (zeros (max_pages_per_sequence cfg)) slot).
Proof. unfold release_slot. now rewrite foldl_ignore. Qed.
End Release.

(** X1. Releasing a slot twice in a row leaves the same table as releasing it
    once, for every table and every slot index. *)
Theorem release_slot_idempotent (cfg : config) (st : state) (slot : Z) :
  release_slot cfg (release_slot cfg st slot) slot = release_slot cfg st slot.
Proof.
  rewrite !release_slot_fields. simpl.
  now rewrite !dynamic_update_twice.
Qed.

(** X2. After [release_slot(slot)] the slot reads as empty, whatever it held
    and whatever the index: length, page count and cursor are 0, the slot is
    inactive and owns no page, and (in a table with at least one slot) its
    row of page ids is all zeros, [max_pages_per_sequence] wide. *)
Theorem release_slot_clears_slot (cfg : config) (st : state) (slot : Z) :
  let st' := release_slot cfg st slot in
  getitem 0 (seq_lengths st') slot = 0 /\
  getitem 0 (seq_pages st') slot = 0 /\
  getitem 0 (seq_page_cursor st') slot = 0 /\
  active st' slot = false /\
  owned st' slot = [] /\
  (seq_page_indices st <> [] ->
   getitem [] (seq_page_indices st') slot = zeros (max_pages_per_sequence cfg)).
Proof.
  intros st'. unfold st', active, owned. rewrite release_slot_fields. simpl.
  rewrite !getitem_dynamic_update_default. simpl.
  repeat split; try reflexivity.
  intros Hrows. now apply getitem_dynamic_update.
Qed.

(** Slot 0 holds 20 tokens in two pages; after its release the row is four
    zeros. *)
Lemma release_slot_clears_slot_witness :
  let st := State [0; 1; 0] [20; 5] [2; 1] [3; 4] [[1; 1; 0; 0]; [2; 0; 0; 0]] in
  getitem [] (seq_page_indices (release_slot cfg3 st 0)) 0 = [0; 0; 0; 0].
Proof.
  intros st.
  destruct (release_slot_clears_slot cfg3 st 0) as (_ & _ & _ & _ & _ & Hrow).
  apply Hrow. discriminate.
Defined.

(** X3. [release_slot] touches one slot only: in a table of [n] slots every
    slot other than the one the (clamped) index names keeps its length, page
    count, cursor and row of page ids. *)
Theorem release_slot_keeps_other_slots (cfg : config) (st : state) (slot : Z)
    (n w s : nat) :
  table_shape st n w ->
  s <> Z.to_nat (clamp_index (Z.of_nat n) slot) ->
  let st' := release_slot cfg st slot in
  seq_lengths st' !! s = seq_lengths st !! s /\
  seq_pages st' !! s = seq_pages st !! s /\
  seq_page_cursor st' !! s = seq_page_cursor st !! s /\
  seq_page_indices st' !! s = seq_page_indices st !! s.
Proof.
  intros (Hl & Hp & Hc & Hr & _) Hs st'. unfold st'.
  rewrite release_slot_fields. simpl.
  unfold dynamic_update_index_in_dim, size. rewrite Hl, Hp, Hc, Hr.
  repeat split; apply list_lookup_insert_ne; congruence.
Qed.

Lemma release_slot_keeps_other_slots_witness :
  let st := State [0; 1; 0] [20; 5] [2; 1] [3; 4] [[1; 1; 0; 0]; [2; 0; 0; 0]] in
  let st' := release_slot cfg3 st 0 in
  seq_lengths st' !! 1%nat = Some 5 /\
  seq_pages st' !! 1%nat = Some 1 /\
  seq_page_cursor st' !! 1%nat = Some 4 /\
  seq_page_indices st' !! 1%nat = Some [2; 0; 0; 0].
Proof.
  intros st st'.
  apply (release_slot_keeps_other_slots cfg3 st 0 2 4 1).
  - repeat split; try reflexivity. repeat constructor.
  - vm_compute. congruence.
Defined.

(** X4. [release_slot] does not reject a slot index outside the table: in a
    table of [n >= 1] slots an index of [n] or more releases the last slot,
    and an index below [-n] releases slot 0. *)
Theorem release_slot_clamps_slot (cfg : config) (st : state) (slot : Z) (n w : nat) :
  table_shape st n w -> (0 < n)%nat ->
  (Z.of_nat n <= slot ->
   release_slot cfg st slot = release_slot cfg st (Z.of_nat n - 1)) /\
  (slot < - Z.of_nat n ->
   release_slot cfg st slot = release_slot cfg st 0).
Proof.
  intros (Hl & Hp & Hc & Hr & _) Hn.
  assert (Hclamp : forall i j,
            clamp_index (Z.of_nat n) i = clamp_index (Z.of_nat n) j ->
            release_slot cfg st i = release_slot cfg st j).
  { intros i j Hij. rewrite !release_slot_fields.
    unfold dynamic_update_index_in_dim, size. rewrite Hl, Hp, Hc, Hr.
    now rewrite Hij. }
  split; intros Hslot; apply Hclamp; unfold clamp_index, normalize_index.
  - destruct (Z.ltb_spec slot 0), (Z.ltb_spec (Z.of_nat n - 1) 0); lia.
  - destruct (Z.ltb_spec slot 0), (Z.ltb_spec 0 0); lia.
Qed.

Lemma release_slot_clamps_slot_witness :
  let st := State [0; 1; 0] [20; 5] [2; 1] [3; 4] [[1; 1; 0; 0]; [2; 0; 0; 0]] in
  release_slot cfg3 st 7 = release_slot cfg3 st 1 /\
  release_slot cfg3 st (-5) = release_slot cfg3 st 0.
Proof.
  intros st.
  destruct (release_slot_clamps_slot cfg3 st 7 2 4) as [Hhi _];
    [repeat split; try reflexivity; repeat constructor | lia |].
  destruct (release_slot_clamps_slot cfg3 st (-5) 2 4) as [_ Hlo];
    [repeat split; try reflexivity; repeat constructor | lia |].
  split; [apply Hhi; lia | apply Hlo; lia].
Defined.

(** ** [assign_prefill_step_pages]: outcome, failure state, reach *)

Section PrefillEdges.
Variable cfg : config.

Lemma prefill_storable_spec L :
  prefill_storable cfg L = true <->
  page_size cfg <> 0 /\ in_int32 L = true /\
  in_int32 ((L - 1) mod page_size cfg) = true.
Proof.
  unfold prefill_storable. rewrite !andb_true_iff, negb_true_iff, Z.eqb_neq. tauto.
Qed.

(** With inputs the stores accept, the call gets to its loop. *)
Lemma prefill_outcome_storable st slot L :
  prefill_storable cfg L = true ->
  assign_prefill_step_pages cfg st slot L
  = if float32_ceil_div L (page_size cfg) <=? 0
    then Returned (prefill_stored cfg st slot L)
    else Raised (if some_page_free cfg st then ValueError else all_in_use)
                (prefill_stored cfg st slot L).
Proof.
  intros H. apply prefill_storable_spec in H as (Hps & HL & Hc).
  rewrite prefill_outcome. apply Z.eqb_neq in Hps. now rewrite Hps, HL, Hc.
Qed.

(** A positive page size below 2^31 makes every [int32] length storable. *)
Lemma prefill_storable_int32 L :
  0 < page_size cfg < 2 ^ 31 -> - 2 ^ 31 <= L < 2 ^ 31 ->
  prefill_storable cfg L = true.
Proof.
  intros Hps HL. apply prefill_storable_spec.
  pose proof (Z.mod_pos_bound (L - 1) (page_size cfg) ltac:(lia)).
  split; [lia|]. split; apply in_int32_spec; lia.
Qed.

(** The per-slot fields after the call, whichever way it ends: each array
    is as before or has the one (clamped) entry of the slot overwritten. *)
Lemma prefill_final_fields st slot L :
  let st' := final_state (assign_prefill_step_pages cfg st slot L) in
  (seq_lengths st' = seq_lengths st
   \/ seq_lengths st' = dynamic_update_index_in_dim (seq_lengths st) L slot) /\
  (seq_pages st' = seq_pages st
   \/ seq_pages st' = dynamic_update_index_in_dim (seq_pages st)
                        (float32_ceil_div L (page_size cfg)) slot) /\
  (seq_page_cursor st' = seq_page_cursor st
   \/ seq_page_cursor st' = dynamic_update_index_in_dim (seq_page_cursor st)
                              ((L - 1) mod page_size cfg) slot).
Proof.
  intros st'. unfold st'. rewrite prefill_outcome.
  repeat match goal with |- context [if ?b then _ else _] => destruct b end;
    simpl; auto.
Qed.
End PrefillEdges.

(** X5. [assign_prefill_step_pages] returns exactly when its inputs can be
    stored (page size not 0, length and cursor within [int32]) and the
    length needs no page: the pool and the slot play no part, and a call that
    needs a page never returns. *)
Theorem prefill_returns_iff (cfg : config) (st : state) (slot L : Z) :
  returns (assign_prefill_step_pages cfg st slot L)
  = prefill_storable cfg L && (float32_ceil_div L (page_size cfg) <=? 0).
Proof.
  rewrite prefill_outcome. unfold prefill_storable.
  destruct (page_size cfg =? 0); [reflexivity|].
  destruct (in_int32 L); [|reflexivity].
  destruct (in_int32 _); [|reflexivity].
  destruct (_ <=? 0); reflexivity.
Qed.

(** X6. How [assign_prefill_step_pages] fails.  Whatever it raises, no page
    id has been written.  A page size of 0 or a length outside [int32]
    leaves the table untouched; a cursor outside [int32] leaves the slot's
    length and page count overwritten; and a call that needs a page raises
    in its first iteration, the assertion when the pool shows no free page
    and [ValueError] when it shows one, with the slot's length, page count
    and cursor already overwritten (nothing is rolled back). *)
Theorem prefill_failure_state (cfg : config) (st st' : state) (slot L : Z) (e : exn) :
  assign_prefill_step_pages cfg st slot L = Raised e st' ->
  seq_page_indices st' = seq_page_indices st /\
  ((e = ZeroDivisionError /\ page_size cfg = 0 /\ st' = st) \/
   (e = OverflowError /\ in_int32 L = false /\ st' = st) \/
   (e = OverflowError /\ in_int32 ((L - 1) mod page_size cfg) = false /\
    st' = prefill_half_stored cfg st slot L) \/
   (e = AssertionError "All pages are in use." /\ some_page_free cfg st = false /\
    1 <= float32_ceil_div L (page_size cfg) /\ st' = prefill_stored cfg st slot L) \/
   (e = ValueError /\ some_page_free cfg st = true /\
    1 <= float32_ceil_div L (page_size cfg) /\ st' = prefill_stored cfg st slot L)).
Proof.
  rewrite prefill_outcome.
  destruct (Z.eqb_spec (page_size cfg) 0) as [Hps|_].
  { intros [= <- <-]. split; [reflexivity|]. left. auto. }
  destruct (in_int32 L) eqn:HL; simpl negb; cbv iota.
  2: { intros [= <- <-]. split; [reflexivity|]. right. left. auto. }
  destruct (in_int32 ((L - 1) mod page_size cfg)) eqn:Hc; simpl negb; cbv iota.
  2: { intros [= <- <-]. split; [reflexivity|]. right. right. left. auto. }
  destruct (Z.leb_spec (float32_ceil_div L (page_size cfg)) 0) as [Hk|Hk];
    [discriminate|].
  destruct (some_page_free cfg st) eqn:Hfree; intros [= <- <-];
    (split; [reflexivity|]); do 3 right; [right|left];
    repeat split; try reflexivity; lia.
Qed.

Lemma prefill_failure_state_witness :
  let st' := State [0; 1; 0] [20; 0] [2; 0] [3; 0] [[0; 0; 0; 0]; [0; 0; 0; 0]] in
  seq_page_indices st' = seq_page_indices (empty_table [0; 1; 0]).
Proof.
  intros st'.
  apply (prefill_failure_state cfg3 (empty_table [0; 1; 0]) st' 0 20 ValueError).
  vm_compute. reflexivity.
Defined.

(** X7. A prefill with [true_length <= 0] is not rejected: for a page size
    in 1 .. 2^31-1 and a length in -2^31 .. 0 it returns on any pool, writes
    no page id, stores the non-positive length with a page count that is not
    positive either, and leaves the slot inactive. *)
Theorem prefill_nonpositive_length (cfg : config) (st : state) (slot L : Z) :
  0 < page_size cfg < 2 ^ 31 -> - 2 ^ 31 <= L <= 0 ->
  assign_prefill_step_pages cfg st slot L = Returned (prefill_stored cfg st slot L) /\
  seq_page_indices (prefill_stored cfg st slot L) = seq_page_indices st /\
  float32_ceil_div L (page_size cfg) <= 0 /\
  active (prefill_stored cfg st slot L) slot = false.
Proof.
  intros Hps HL.
  pose proof (float32_ceil_div_nonpos L (page_size cfg) ltac:(lia) ltac:(lia)) as Hk.
  split; [|split; [reflexivity|split; [exact Hk|]]].
  - rewrite prefill_outcome_storable by (apply prefill_storable_int32; lia).
    destruct (Z.leb_spec (float32_ceil_div L (page_size cfg)) 0); [reflexivity|lia].
  - unfold active, prefill_stored. simpl.
    destruct (seq_lengths st) as [|x l] eqn:Hl; [reflexivity|].
    rewrite getitem_dynamic_update by congruence.
    apply Z.ltb_ge. lia.
Qed.

Lemma prefill_nonpositive_length_witness :
  assign_prefill_step_pages cfg3 (setup cfg3) 1 0
  = Returned (prefill_stored cfg3 (setup cfg3) 1 0) /\
  seq_page_indices (prefill_stored cfg3 (setup cfg3) 1 0)
  = seq_page_indices (setup cfg3) /\
  float32_ceil_div 0 (page_size cfg3) <= 0 /\
  active (prefill_stored cfg3 (setup cfg3) 1 0) 1 = false.
Proof.
  apply (prefill_nonpositive_length cfg3 (setup cfg3) 1 0);
    [split; reflexivity | lia].
Defined.

(** X8. [assign_prefill_step_pages] touches one slot only: in a table of [n]
    slots, whether the call returns or raises, every slot other than the one
    the (clamped) index names keeps its length, page count, cursor and row of
    page ids. *)
Theorem prefill_keeps_other_slots (cfg : config) (st : state) (slot L : Z)
    (n w s : nat) :
  table_shape st n w ->
  s <> Z.to_nat (clamp_index (Z.of_nat n) slot) ->
  let st' := final_state (assign_prefill_step_pages cfg st slot L) in
  seq_lengths st' !! s = seq_lengths st !! s /\
  seq_pages st' !! s = seq_pages st !! s /\
  seq_page_cursor st' !! s = seq_page_cursor st !! s /\
  seq_page_indices st' !! s = seq_page_indices st !! s.
Proof.
  intros (Hl & Hp & Hc & Hr & _) Hs st'.
  destruct (prefill_final_fields cfg st slot L) as (Hl' & Hp' & Hc').
  fold st' in Hl', Hp', Hc'.
  split; [|split; [|split]].
  - destruct Hl' as [->| ->]; [reflexivity|].
    unfold dynamic_update_index_in_dim, size. rewrite Hl.
    apply list_lookup_insert_ne. congruence.
  - destruct Hp' as [->| ->]; [reflexivity|].
    unfold dynamic_update_index_in_dim, size. rewrite Hp.
    apply list_lookup_insert_ne. congruence.
  - destruct Hc' as [->| ->]; [reflexivity|].
    unfold dynamic_update_index_in_dim, size. rewrite Hc.
    apply list_lookup_insert_ne. congruence.
  - unfold st'. now rewrite prefill_rows.
Qed.

Lemma prefill_keeps_other_slots_witness :
  let st := State [0; 1; 0] [0; 5] [0; 1] [0; 4] [[0; 0; 0; 0]; [2; 0; 0; 0]] in
  let st' := final_state (assign_prefill_step_pages cfg3 st 0 20) in
  seq_lengths st' !! 1%nat = Some 5 /\
  seq_pages st' !! 1%nat = Some 1 /\
  seq_page_cursor st' !! 1%nat = Some 4 /\
  seq_page_indices st' !! 1%nat = Some [2; 0; 0; 0].
Proof.
  intros st st'.
  apply (prefill_keeps_other_slots cfg3 st 0 20 2 4 1).
  - repeat split; try reflexivity. repeat constructor.
  - vm_compute. congruence.
Defined.

(** X9. [assign_prefill_step_pages] never records a page id: for every
    table, slot index and length, whether the call returns or raises,
    [seq_page_indices] is afterwards what it was before. *)
Theorem prefill_never_writes_page_id (cfg : config) (st : state) (slot L : Z) :
  seq_page_indices (final_state (assign_prefill_step_pages cfg st slot L))
  = seq_page_indices st.
Proof. apply prefill_rows. Qed.

(** X10. A slot index outside the table is not rejected by
    [assign_prefill_step_pages]: in a table of [n >= 1] slots, with inputs
    the stores accept, an index of [n] or more overwrites the length, page
    count and cursor of the LAST slot (the page count being the binary32
    ceiling the code computes), and writes no page id anywhere, whether the
    call returns or raises. *)
Theorem prefill_slot_out_of_range (cfg : config) (st : state) (slot L : Z)
    (n w : nat) :
  table_shape st n w -> (0 < n)%nat -> Z.of_nat n <= slot ->
  prefill_storable cfg L = true ->
  let st' := final_state (assign_prefill_step_pages cfg st slot L) in
  seq_lengths st' !! (n - 1)%nat = Some L /\
  seq_pages st' !! (n - 1)%nat = Some (float32_ceil_div L (page_size cfg)) /\
  seq_page_cursor st' !! (n - 1)%nat = Some ((L - 1) mod page_size cfg) /\
  seq_page_indices st' = seq_page_indices st.
Proof.
  intros (Hl & Hp & Hc & Hr & _) Hn Hslot Hok st'.
  assert (Hst : st' = prefill_stored cfg st slot L).
  { unfold st'. rewrite prefill_outcome_storable by exact Hok.
    destruct (_ <=? 0); reflexivity. }
  rewrite Hst. unfold prefill_stored, dynamic_update_index_in_dim, size. simpl.
  rewrite Hl, Hp, Hc.
  assert (Z.to_nat (clamp_index (Z.of_nat n) slot) = (n - 1)%nat) as ->.
  { unfold clamp_index, normalize_index. destruct (Z.ltb_spec slot 0); lia. }
  repeat split; apply list_lookup_insert_eq; lia.
Qed.

Lemma prefill_slot_out_of_range_witness :
  let st := State [0; 1; 0] [0; 5] [0; 1] [0; 4] [[0; 0; 0; 0]; [2; 0; 0; 0]] in
  let st' := final_state (assign_prefill_step_pages cfg3 st 2 20) in
  seq_lengths st' !! 1%nat = Some 20 /\
  seq_pages st' !! 1%nat = Some 2 /\
  seq_page_cursor st' !! 1%nat = Some 3 /\
  seq_page_indices st' = [[0; 0; 0; 0]; [2; 0; 0; 0]].
Proof.
  intros st st'.
  apply (prefill_slot_out_of_range cfg3 st 2 20 2 4).
  - repeat split; try reflexivity. repeat constructor.
  - lia.
  - lia.
  - reflexivity.
Defined.

(** X25. No prefill of a positive length returns: for a page size in
    1 .. 2^31-1, every [assign_prefill_step_pages] with [true_length >= 1]
    raises, on every table and for every slot index. *)
Theorem positive_prefill_never_returns (cfg : config) (st : state) (slot L : Z) :
  0 < page_size cfg < 2 ^ 31 -> 1 <= L ->
  returns (assign_prefill_step_pages cfg st slot L) = false.
Proof.
  intros Hps HL. rewrite prefill_outcome.
  destruct (Z.eqb_spec (page_size cfg) 0); [reflexivity|].
  destruct (in_int32 L) eqn:Hin; [|reflexivity]. simpl negb. cbv iota.
  destruct (negb (in_int32 _)); [reflexivity|].
  apply in_int32_spec in Hin.
  pose proof (float32_ceil_div_pos L (page_size cfg) Hps ltac:(lia)).
  destruct (Z.leb_spec (float32_ceil_div L (page_size cfg)) 0); [lia|reflexivity].
Qed.

Lemma positive_prefill_never_returns_witness :
  returns (assign_prefill_step_pages cfg3 (empty_table [0; 0; 0]) 0 1) = false.
Proof.
  apply (positive_prefill_never_returns cfg3 (empty_table [0; 0; 0]) 0 1);
    [split; reflexivity | lia].
Defined.

(** ** The shape of the table *)

(** X16. No call changes the shape of the table, whether it returns or
    raises: a table of [n] slots whose rows are [max_pages_per_sequence] wide
    is one after every prefill, decode step and release, for any slot index
    and any length. *)
Theorem step_keeps_table_shape (cfg : config) (st : state) (c : call) (n : nat) :
  table_shape st n (Z.to_nat (max_pages_per_sequence cfg)) ->
  table_shape (final_state (step cfg st c)) n (Z.to_nat (max_pages_per_sequence cfg)).
Proof.
  intros (Hl & Hp & Hc & Hr & Hw). destruct c as [slot L| |slot]; simpl.
  - destruct (prefill_final_fields cfg st slot L) as (Hl' & Hp' & Hc').
    unfold table_shape. rewrite prefill_rows.
    repeat split; try assumption.
    + destruct Hl' as [->| ->]; [assumption|].
      unfold dynamic_update_index_in_dim. now rewrite length_insert.
    + destruct Hp' as [->| ->]; [assumption|].
      unfold dynamic_update_index_in_dim. now rewrite length_insert.
    + destruct Hc' as [->| ->]; [assumption|].
      unfold dynamic_update_index_in_dim. now rewrite length_insert.
  - repeat split; assumption.
  - rewrite release_slot_fields.
    unfold table_shape, dynamic_update_index_in_dim. simpl.
    rewrite !length_insert. repeat split; try assumption.
    apply Forall_insert; [assumption|].
    unfold zeros. apply length_replicate.
Qed.

Lemma step_keeps_table_shape_witness :
  table_shape (final_state (step cfg3 (empty_table [0; 1; 0]) (Prefill 0 100)))
              2 (Z.to_nat (max_pages_per_sequence cfg3)).
Proof.
  apply (step_keeps_table_shape cfg3 (empty_table [0; 1; 0]) (Prefill 0 100) 2).
  repeat split; try reflexivity. repeat constructor.
Defined.

(** X17. From [setup] on, no slot ever becomes active: with a page size in
    1 .. 2^31-1 and at least one page, in every state that a sequence of
    returning prefill, decode and release calls reaches, every slot is
    inactive, no page is owned, and the pool is as [setup] filled it.  (The
    bound on the page size is needed: see [huge_page_size_activates_slot].) *)
Theorem runs_from_setup_stay_idle (cfg : config) (st : state) :
  0 < page_size cfg < 2 ^ 31 -> 0 < num_pages cfg ->
  reachable cfg st ->
  (forall s, active st s = false) /\
  owned_pages st = [] /\
  page_indices st = page_indices (setup cfg).
Proof.
  intros Hps Hn Hreach.
  pose proof (reachable_idle cfg Hps st Hreach) as Hidle.
  split; [|split].
  - intros s. unfold active.
    pose proof (getitem_Forall (fun n => n <= 0) 0 (seq_lengths st) s Hidle
                  (Z.le_refl 0)) as Hs.
    simpl in Hs. now apply Z.ltb_ge.
  - now apply idle_owns_nothing.
  - now apply reachable_page_indices.
Qed.

(** After [setup], a prefill of length 0 into slot 1 and the release of
    slot 0. *)
Lemma runs_from_setup_stay_idle_witness :
  let st := State [0; 1; 2] [0; 0] [0; 0] [0; 15] [[0; 0; 0; 0]; [0; 0; 0; 0]] in
  (forall s, active st s = false) /\
  owned_pages st = [] /\
  page_indices st = page_indices (setup cfg3).
Proof.
  intros st.
  apply (runs_from_setup_stay_idle cfg3 st); [split; reflexivity | reflexivity |].
  apply (reachable_step cfg3
           (State [0; 1; 2] [0; 0] [0; 0] [0; 15] [[0; 0; 0; 0]; [0; 0; 0; 0]])
           (Release 0)); [|reflexivity].
  apply (reachable_step cfg3 (setup cfg3) (Prefill 1 0)); [|vm_compute; reflexivity].
  apply reachable_setup.
Defined.

(** ** The storage writers: what they leave alone *)

Section WriterFrame.
Context {V : Type}.
Implicit Types (pages : list (list V)) (block new : list V).

Lemma dynamic_update_slice_shape pages block p :
  length <$> dynamic_update_slice_in_dim pages block p = length <$> pages.
Proof.
  unfold dynamic_update_slice_in_dim. cbv zeta.
  destruct (pages !! _) as [row|] eqn:Hrow; [|reflexivity].
  rewrite list_fmap_insert. apply list_insert_id.
  rewrite list_lookup_fmap, Hrow. simpl. f_equal.
  rewrite length_take, length_app, length_drop. lia.
Qed.

Lemma dynamic_update_slice_other pages block p (i : nat) :
  i <> Z.to_nat (clamp_index (size pages) p) ->
  dynamic_update_slice_in_dim pages block p !! i = pages !! i.
Proof.
  intros Hi. unfold dynamic_update_slice_in_dim. cbv zeta.
  destruct (pages !! Z.to_nat _) as [row|]; [|reflexivity].
  apply list_lookup_insert_ne. congruence.
Qed.

Lemma size_of_shape pages pages' :
  length <$> pages' = length <$> pages -> size pages' = size pages.
Proof.
  intros H. apply (f_equal length) in H. rewrite !length_fmap in H.
  unfold size. now rewrite H.
Qed.

(** The prefill writer on a list of page indices [ks]. *)
Lemma update_pages_shape cfg st slot new (ks : list Z) : forall pages,
  length <$> foldl (fun pages k =>
                      dynamic_update_slice_in_dim pages
                        (dynamic_slice_in_dim new ((k - 1) * page_size cfg)
                           (page_size cfg))
                        (page_of st slot k))
                   pages ks
  = length <$> pages.
Proof.
  induction ks as [|k ks IH]; intros pages; simpl; [reflexivity|].
  rewrite IH. apply dynamic_update_slice_shape.
Qed.

Lemma update_pages_other cfg st slot new (ks : list Z) (i : nat) : forall pages,
  (forall k, k ∈ ks -> i <> prefill_target st pages slot k) ->
  foldl (fun pages k =>
           dynamic_update_slice_in_dim pages
             (dynamic_slice_in_dim new ((k - 1) * page_size cfg) (page_size cfg))
             (page_of st slot k))
        pages ks !! i
  = pages !! i.
Proof.
  induction ks as [|k ks IH]; intros pages Hi; simpl; [reflexivity|].
  set (p1 := dynamic_update_slice_in_dim pages _ _).
  assert (Hshape : length <$> p1 = length <$> pages)
    by apply dynamic_update_slice_shape.
  rewrite IH.
  - apply dynamic_update_slice_other. apply (Hi k). now left.
  - intros k' Hk'. unfold prefill_target. rewrite (size_of_shape _ _ Hshape).
    apply Hi. now right.
Qed.
End WriterFrame.

(** X18. [update_prefill_step_pages] keeps the buffers' shape and writes
    only to the rows named by the slot's first [seq_pages] page ids: both
    buffers keep their number of pages and every page its length, every other
    row is unchanged, and for a slot with no pages ([seq_pages <= 0]) the
    buffers come back as they were. *)
Theorem update_prefill_writes_only_slot_pages (cfg : config) {V} (st : state)
    (key_pages value_pages : list (list V)) (key value : list V) (slot : Z) :
  let out := update_prefill_step_pages cfg st key_pages value_pages key value slot in
  length <$> out.1 = length <$> key_pages /\
  length <$> out.2 = length <$> value_pages /\
  (forall i : nat,
     (forall k, 0 <= k < getitem 0 (seq_pages st) slot ->
                i <> prefill_target st key_pages slot k) ->
     out.1 !! i = key_pages !! i) /\
  (forall i : nat,
     (forall k, 0 <= k < getitem 0 (seq_pages st) slot ->
                i <> prefill_target st value_pages slot k) ->
     out.2 !! i = value_pages !! i) /\
  (getitem 0 (seq_pages st) slot <= 0 -> out = (key_pages, value_pages)).
Proof.
  intros out. unfold out, update_prefill_step_pages, update_pages. simpl.
  assert (Hin : forall k, k ∈ range (getitem 0 (seq_pages st) slot) ->
                          0 <= k < getitem 0 (seq_pages st) slot).
  { intros k Hk. unfold range in Hk. apply elem_of_seqZ in Hk. lia. }
  split; [|split; [|split; [|split]]].
  - apply update_pages_shape.
  - apply update_pages_shape.
  - intros i Hi. apply update_pages_other. intros k Hk. apply Hi, Hin, Hk.
  - intros i Hi. apply update_pages_other. intros k Hk. apply Hi, Hin, Hk.
  - intros Hk. unfold range. now rewrite seqZ_nil.
Qed.

(** Slot 0 owns pages 1 and 2 of four: page 3 keeps its content. *)
Lemma update_prefill_writes_only_slot_pages_witness :
  let st := State [0; 1; 1; 0] [4; 0] [2; 0] [1; 0] [[1; 2; 0; 0]; [0; 0; 0; 0]] in
  let pages := [[0; 0]; [0; 0]; [0; 0]; [7; 8]] in
  let out := update_prefill_step_pages (Config 2 8 2 4) st pages pages
               [10; 11; 12; 13] [20; 21; 22; 23] 0 in
  out.1 !! 3%nat = Some [7; 8] /\ out.2 !! 3%nat = Some [7; 8].
Proof.
  intros st pages out.
  destruct (update_prefill_writes_only_slot_pages (Config 2 8 2 4) st pages pages
              [10; 11; 12; 13] [20; 21; 22; 23] 0) as (_ & _ & Hk & Hv & _).
  split; [apply Hk | apply Hv];
    intros k Hk'; change (getitem 0 (seq_pages st) 0) with 2 in Hk';
    assert (k = 0 \/ k = 1) as [-> | ->] by lia; vm_compute; congruence.
Defined.

(** ** The decode storage writer *)

Section DecodeWriter.
Context {V : Type}.
Implicit Types (pages : list (list V)) (ws : list (Z * Z * V)).

Lemma at_set2_shape pages r c (v : V) :
  length <$> at_set2 pages r c v = length <$> pages.
Proof.
  unfold at_set2. cbv zeta.
  destruct (_ && _); [|reflexivity].
  destruct (pages !! _) as [row|] eqn:Hrow; [|reflexivity].
  destruct (_ && _); [|reflexivity].
  rewrite list_fmap_insert. apply list_insert_id.
  rewrite list_lookup_fmap, Hrow. simpl. now rewrite length_insert.
Qed.

Lemma cell_of_shape pages pages' r c :
  length <$> pages' = length <$> pages -> cell_of pages' r c = cell_of pages r c.
Proof.
  intros Hshape. unfold cell_of. cbv zeta.
  rewrite (size_of_shape _ _ Hshape).
  destruct (_ && _); [|reflexivity].
  set (k := Z.to_nat _).
  assert (Hk : length <$> (pages' !! k) = length <$> (pages !! k))
    by now rewrite <- !list_lookup_fmap, Hshape.
  destruct (pages' !! k) as [row'|], (pages !! k) as [row|]; simpl in Hk;
    try discriminate; [|reflexivity].
  injection Hk as Hk. unfold size. now rewrite Hk.
Qed.

(** One write: the named cell receives the value, every other cell stays. *)
Lemma cell_at_set2 pages r c (v : V) (i j : nat) :
  cell (at_set2 pages r c v) i j
  = if decide (cell_of pages r c = Some (i, j)) then Some v else cell pages i j.
Proof.
  unfold at_set2, cell_of, cell. cbv zeta.
  destruct (_ && _); [|now rewrite decide_False by discriminate].
  set (i' := Z.to_nat _).
  destruct (pages !! i') as [row|] eqn:Hrow;
    [|now rewrite decide_False by discriminate].
  destruct (_ && _) eqn:Hc; [|now rewrite decide_False by discriminate].
  set (j' := Z.to_nat _).
  assert (Hj : (j' < length row)%nat).
  { apply andb_true_iff in Hc as [Hlo Hhi].
    apply Z.leb_le in Hlo. apply Z.ltb_lt in Hhi. unfold j', size in *. lia. }
  assert (Hi : (i' < length pages)%nat) by (eapply lookup_lt_Some; eauto).
  destruct (decide (Some (i', j') = Some (i, j))) as [[= <- <-]|Hne].
  - rewrite list_lookup_insert_eq by exact Hi. simpl.
    now apply list_lookup_insert_eq.
  - destruct (decide (i' = i)) as [<-|Hi'].
    + rewrite list_lookup_insert_eq by exact Hi. rewrite Hrow. simpl.
      apply list_lookup_insert_ne. congruence.
    + now rewrite list_lookup_insert_ne by exact Hi'.
Qed.

Lemma at_set_cells_shape pages rs cs (new : list V) :
  length <$> at_set_cells pages rs cs new = length <$> pages.
Proof.
  unfold at_set_cells. generalize (zip (zip rs cs) new). intros ws.
  revert pages. induction ws as [|w ws IH]; intros pages; simpl; [reflexivity|].
  rewrite IH. apply at_set2_shape.
Qed.

(** A run of writes: a cell none of them names stays; a cell some of them
    name holds the value of one that names it. *)
Lemma cell_after_writes ws (i j : nat) : forall pages,
  let pages' := foldl (fun pages w => at_set2 pages w.1.1 w.1.2 w.2) pages ws in
  (Forall (fun w => cell_of pages w.1.1 w.1.2 <> Some (i, j)) ws /\
   cell pages' i j = cell pages i j) \/
  (exists w, w ∈ ws /\ cell_of pages w.1.1 w.1.2 = Some (i, j) /\
             cell pages' i j = Some w.2).
Proof.
  induction ws as [|w ws IH]; intros pages; simpl.
  - left. split; [constructor|reflexivity].
  - set (p1 := at_set2 pages w.1.1 w.1.2 w.2).
    assert (Hshape : length <$> p1 = length <$> pages) by apply at_set2_shape.
    destruct (IH p1) as [[Hno Hcell]|(w' & Hin & Hhit & Hcell)].
    + unfold p1 in Hcell at 2. rewrite cell_at_set2 in Hcell.
      destruct (decide (cell_of pages w.1.1 w.1.2 = Some (i, j))) as [Hw|Hw].
      * right. exists w. split; [now left|]. split; assumption.
      * left. split; [|assumption]. constructor; [assumption|].
        eapply Forall_impl; [exact Hno|]. intros x Hx. simpl in Hx.
        now rewrite (cell_of_shape _ _ _ _ Hshape) in Hx.
    + right. exists w'. split; [now right|]. split; [|assumption].
      now rewrite (cell_of_shape _ _ _ _ Hshape) in Hhit.
Qed.
End DecodeWriter.

(** X19. [update_decode_step_pages] keeps the buffers' shape and leaves
    every cell that no slot's (page, offset) pair names as it was: both
    buffers keep their number of pages and every page its length, and a cell
    outside the targets keeps its key and its value. *)
Theorem update_decode_keeps_untargeted_cells {V} (st : state)
    (key_pages value_pages : list (list V)) (key value : list V) :
  let out := update_decode_step_pages st key_pages value_pages key value in
  length <$> out.1 = length <$> key_pages /\
  length <$> out.2 = length <$> value_pages /\
  (forall i j : nat,
     Forall (fun w => cell_of key_pages w.1.1 w.1.2 <> Some (i, j))
            (decode_writes st key) ->
     cell out.1 i j = cell key_pages i j) /\
  (forall i j : nat,
     Forall (fun w => cell_of value_pages w.1.1 w.1.2 <> Some (i, j))
            (decode_writes st value) ->
     cell out.2 i j = cell value_pages i j).
Proof.
  intros out. unfold out, update_decode_step_pages, update_decode_pages. simpl.
  split; [apply at_set_cells_shape|]. split; [apply at_set_cells_shape|].
  split; intros i j Hno; unfold at_set_cells.
  - destruct (cell_after_writes (decode_writes st key) i j key_pages)
      as [[_ Hcell]|(w & Hin & Hhit & _)]; [exact Hcell|].
    exfalso. eapply Forall_forall in Hno; [|exact Hin]. now apply Hno.
  - destruct (cell_after_writes (decode_writes st value) i j value_pages)
      as [[_ Hcell]|(w & Hin & Hhit & _)]; [exact Hcell|].
    exfalso. eapply Forall_forall in Hno; [|exact Hin]. now apply Hno.
Qed.

(** Two slots write to pages 1 and 0; page 2 and the other offsets stay. *)
Lemma update_decode_keeps_untargeted_cells_witness :
  let st := State [0; 1; 1] [5; 1] [2; 1] [0; 0] [[1; 2; 0; 0]; [2; 0; 0; 0]] in
  let pages := [[1; 2; 3; 4]; [5; 6; 7; 8]; [9; 10; 11; 12]] in
  let out := update_decode_step_pages st pages pages [50; 60] [70; 80] in
  cell out.1 2 0 = Some 9 /\ cell out.2 1 1 = Some 6.
Proof.
  intros st pages out.
  destruct (update_decode_keeps_untargeted_cells st pages pages [50; 60] [70; 80])
    as (_ & _ & Hk & Hv).
  split; [apply Hk | apply Hv]; repeat constructor; vm_compute; congruence.
Defined.

Section DecodeTargets.
Context {V : Type}.

(** The write of slot [t]: page index [seq_pages[t] - 1], offset
    [seq_page_cursor[t]], entry [new[t]]. *)
Lemma decode_writes_lookup (st : state) (new : list V) (t : nat) w :
  decode_writes st new !! t = Some w <->
  exists p c v, seq_pages st !! t = Some p /\ seq_page_cursor st !! t = Some c /\
                new !! t = Some v /\ w = (wrap_int32 (p - 1), c, v).
Proof.
  unfold decode_writes, assigned_page_idx, zip. split.
  - intros H. apply lookup_zip_with_Some in H as (rc & v & -> & Hrc & Hv).
    apply lookup_zip_with_Some in Hrc as (r & c & -> & Hr & Hc).
    rewrite list_lookup_fmap in Hr.
    destruct (seq_pages st !! t) as [p|]; [|discriminate].
    injection Hr as <-. exists p, c, v. repeat split; assumption.
  - intros (p & c & v & Hp & Hc & Hv & ->).
    apply lookup_zip_with_Some. exists (wrap_int32 (p - 1), c), v.
    split; [reflexivity|]. split; [|assumption].
    apply lookup_zip_with_Some. exists (wrap_int32 (p - 1)), c.
    split; [reflexivity|]. split; [|assumption].
    now rewrite list_lookup_fmap, Hp.
Qed.

(** A cell that some slot names holds, after the writes, the entry of a slot
    that names it. *)
Lemma update_decode_pages_targeted (st : state) (pages : list (list V))
    (new : list V) (i j : nat) :
  (exists w, w ∈ decode_writes st new /\ cell_of pages w.1.1 w.1.2 = Some (i, j)) ->
  exists w, w ∈ decode_writes st new /\ cell_of pages w.1.1 w.1.2 = Some (i, j) /\
            cell (update_decode_pages st pages new) i j = Some w.2.
Proof.
  intros (w & Hin & Hhit). unfold update_decode_pages, at_set_cells.
  destruct (cell_after_writes (decode_writes st new) i j pages)
    as [[Hno _]|Hsome]; [|exact Hsome].
  exfalso. eapply Forall_forall in Hno; [|exact Hin]. now apply Hno.
Qed.
End DecodeTargets.

(** X20. A cell of the buffers that at least one slot's (page, offset) pair
    names holds, after [update_decode_step_pages], the entry of a slot that
    names it: the old content is gone, and nothing but a writer's key (or
    value) can be there. *)
Theorem update_decode_targeted_cell {V} (st : state)
    (key_pages value_pages : list (list V)) (key value : list V) (i j : nat) :
  let out := update_decode_step_pages st key_pages value_pages key value in
  ((exists w, w ∈ decode_writes st key /\
              cell_of key_pages w.1.1 w.1.2 = Some (i, j)) ->
   exists w, w ∈ decode_writes st key /\
             cell_of key_pages w.1.1 w.1.2 = Some (i, j) /\
             cell out.1 i j = Some w.2) /\
  ((exists w, w ∈ decode_writes st value /\
              cell_of value_pages w.1.1 w.1.2 = Some (i, j)) ->
   exists w, w ∈ decode_writes st value /\
             cell_of value_pages w.1.1 w.1.2 = Some (i, j) /\
             cell out.2 i j = Some w.2).
Proof.
  intros out. split; apply update_decode_pages_targeted.
Qed.

(** Two inactive slots (page count 0, cursor 0) both name the first cell of
    the LAST page: it ends up holding the key of one of them. *)
Lemma update_decode_targeted_cell_witness :
  let st := State [0; 1; 1] [0; 0] [0; 0] [0; 0] [[0; 0; 0; 0]; [0; 0; 0; 0]] in
  let pages := [[1; 2; 3; 4]; [5; 6; 7; 8]; [9; 10; 11; 12]] in
  let out := update_decode_step_pages st pages pages [50; 60] [70; 80] in
  exists w, w ∈ decode_writes st [50; 60] /\
            cell_of pages w.1.1 w.1.2 = Some (2%nat, 0%nat) /\
            cell out.1 2 0 = Some w.2.
Proof.
  intros st pages out.
  destruct (update_decode_targeted_cell st pages pages [50; 60] [70; 80] 2 0)
    as [Hk _].
  apply Hk. exists (-1, 0, 50). split; [vm_compute; in_list | reflexivity].
Defined.

(** X21. Where the decode writer puts a slot's entry: for a slot with page
    count [p >= 1] and cursor [c], whose cell (page [p - 1], offset [c])
    exists and is named by no other slot, the key and the value of that slot
    land in page number [p - 1] at offset [c].  The page is the page COUNT
    minus one; the page ids in [seq_page_indices] are not consulted. *)
Theorem update_decode_writes_page_count_minus_one {V} (st : state)
    (key_pages value_pages : list (list V)) (key value : list V)
    (s : nat) (p c : Z) (k v : V) :
  seq_pages st !! s = Some p -> seq_page_cursor st !! s = Some c ->
  key !! s = Some k -> value !! s = Some v ->
  1 <= p < 2 ^ 31 ->
  length <$> value_pages = length <$> key_pages ->
  cell_of key_pages (p - 1) c = Some (Z.to_nat (p - 1), Z.to_nat c) ->
  (forall (t : nat) p' c',
     t <> s -> seq_pages st !! t = Some p' -> seq_page_cursor st !! t = Some c' ->
     cell_of key_pages (wrap_int32 (p' - 1)) c'
     <> Some (Z.to_nat (p - 1), Z.to_nat c)) ->
  let out := update_decode_step_pages st key_pages value_pages key value in
  cell out.1 (Z.to_nat (p - 1)) (Z.to_nat c) = Some k /\
  cell out.2 (Z.to_nat (p - 1)) (Z.to_nat c) = Some v.
Proof.
  intros Hp Hc Hk Hv Hrange Hshape Hcell Huniq out.
  assert (Hwrap : wrap_int32 (p - 1) = p - 1) by (apply wrap_int32_small; lia).
  assert (Hone : forall (pages : list (list V)) (new : list V) x,
            length <$> pages = length <$> key_pages -> new !! s = Some x ->
            cell (update_decode_pages st pages new) (Z.to_nat (p - 1)) (Z.to_nat c)
            = Some x).
  { intros pages new x Hsh Hx.
    destruct (update_decode_pages_targeted st pages new
                (Z.to_nat (p - 1)) (Z.to_nat c)) as (w & Hin & Hhit & Hres).
    - exists (wrap_int32 (p - 1), c, x). split.
      + apply list_elem_of_lookup. exists s. apply decode_writes_lookup.
        exists p, c, x. repeat split; assumption.
      + simpl. now rewrite Hwrap, (cell_of_shape _ _ _ _ Hsh).
    - rewrite Hres. f_equal.
      apply list_elem_of_lookup in Hin as [t Ht].
      apply decode_writes_lookup in Ht as (p' & c' & x' & Hp' & Hc' & Hx' & ->).
      simpl in *. destruct (decide (t = s)) as [->|Hne]; [congruence|].
      exfalso. apply (Huniq t p' c' Hne Hp' Hc').
      now rewrite <- (cell_of_shape _ _ _ _ Hsh). }
  split; [apply (Hone key_pages key k eq_refl Hk)
         | apply (Hone value_pages value v Hshape Hv)].
Qed.

(** Slot 0 has two pages and lists the page ids 2 and 0 in its row, cursor
    1; slot 1 has one page, cursor 3.  Slot 0's entry goes to page 1 (its page
    count minus one), offset 1, not to page 0, the id its row lists last. *)
Lemma update_decode_writes_page_count_minus_one_witness :
  let st := State [0; 1; 1] [6; 4] [2; 1] [1; 3] [[2; 0; 0; 0]; [1; 0; 0; 0]] in
  let pages := [[1; 2; 3; 4]; [5; 6; 7; 8]; [9; 10; 11; 12]] in
  let out := update_decode_step_pages st pages pages [50; 60] [70; 80] in
  cell out.1 1 1 = Some 50 /\ cell out.2 1 1 = Some 70.
Proof.
  intros st pages out.
  apply (update_decode_writes_page_count_minus_one st pages pages
           [50; 60] [70; 80] 0 2 1 50 70); try reflexivity.
  - lia.
  - intros [|[|t]] p' c' Hne Hp' Hc'; simpl in Hp', Hc';
      try congruence; try discriminate.
    injection Hp' as <-. injection Hc' as <-. vm_compute. congruence.
Defined.

(** ** Prefill, then release *)

(** X22. Prefill followed by release leaves nothing behind: for every table,
    slot index and length, releasing the slot right after
    [assign_prefill_step_pages] (whether that call returned or raised) gives
    exactly the table that releasing the slot alone gives. *)
Theorem release_after_prefill (cfg : config) (st : state) (slot L : Z) :
  release_slot cfg (final_state (assign_prefill_step_pages cfg st slot L)) slot
  = release_slot cfg st slot.
Proof.
  rewrite !release_slot_fields, prefill_rows, prefill_page_indices.
  destruct (prefill_final_fields cfg st slot L) as (Hl & Hp & Hc).
  destruct Hl as [->| ->], Hp as [->| ->], Hc as [->| ->];
    now rewrite ?dynamic_update_twice.
Qed.

(** ** The page ids a decode step writes *)


(** X26. No call ever records a page id in a blank table: if every row of
    [seq_page_indices] is [max_pages_per_sequence] zeros, as after [setup],
    it is so after every prefill, decode step and release, whether the call
    returns or raises. *)
Theorem step_keeps_rows_blank (cfg : config) (st : state) (c : call) (n : nat) :
  seq_page_indices st = replicate n (zeros (max_pages_per_sequence cfg)) ->
  seq_page_indices (final_state (step cfg st c))
  = replicate n (zeros (max_pages_per_sequence cfg)).
Proof.
  intros Hrows. destruct c as [slot L| |slot]; cbn [step final_state].
  - now rewrite prefill_rows.
  - exact Hrows.
  - rewrite release_slot_fields. simpl. rewrite Hrows.
    unfold dynamic_update_index_in_dim.
    set (k := Z.to_nat _).
    destruct (decide (k < n)%nat) as [Hk|Hk].
    + apply list_insert_id. now apply lookup_replicate_2.
    + apply list_insert_ge. rewrite length_replicate. lia.
Qed.

Lemma step_keeps_rows_blank_witness :
  seq_page_indices (final_state (step cfg3 (setup cfg3) (Prefill 0 20)))
  = replicate 2 (zeros (max_pages_per_sequence cfg3)).
Proof.
  apply (step_keeps_rows_blank cfg3 (setup cfg3) (Prefill 0 20) 2). reflexivity.
Defined.
